(** * Assistant transport backend with LangGraph ([src/agent/main.py])

    A shallow embedding of the backend's tools, tool dispatch node, routing
    function, graph construction and request handling, together with the
    properties of the natural-language specification that concern them.

    Conventions.
    - A Python [str] is a [string] holding its UTF-8 bytes.
    - What the module obtains from its runtime and not from its own text
      (the random module, the environment, the chat model and its client,
      the step limit of the graph library, [str.upper], [str()] of a
      dictionary, pydantic's [model_dump] and the text of its validation
      errors) is gathered in one record, [Host]; every definition that
      needs it takes it as argument.
    - Stateful and fallible code lives in the monad [M]: a world (position
      in the random source, number of model calls, log of started
      sub-computations) is threaded through, and a raised exception is a
      left injection. *)

From Stdlib Require Import ZArith DecimalPos DecimalZ DecimalString Ascii String.
From stdpp Require Import base strings list gmap.

Set Warnings "-register-all".

(** ** Python strings and exceptions *)

(** An instance of Python's [Exception]: its class name and [str(e)]. *)
Record exn := Exn { exn_class : string; exn_str : string }.

(** The double quote character, as a one-character string. *)
Definition DQ : string := String (ascii_of_nat 34) EmptyString.

(** [str(n)] for an integer. *)
Definition str_of_int (z : Z) : string := NilZero.string_of_int (Z.to_int z).

(** Number of bytes of the UTF-8 sequence introduced by the byte [c]. *)
Definition utf8_width (c : ascii) : nat :=
  let n := nat_of_ascii c in
  if n <? 192 then 1 else if n <? 224 then 2 else if n <? 240 then 3 else 4.

(** [s[0]]: the first character of [s]; [IndexError] on the empty string. *)
Definition str_index0 (s : string) : exn + string :=
  match s with
  | EmptyString => inl (Exn "IndexError" "string index out of range")
  | String c _ => inr (substring 0 (utf8_width c) s)
  end.

(** [sep.join(parts)] *)
Definition str_join (sep : string) (parts : list string) : string :=
  String.concat sep parts.

(** ** [json.dumps(obj, ensure_ascii=False)] *)

Inductive json : Type :=
| JNull
| JBool (b : bool)
| JInt (z : Z)
| JStr (s : string)
| JList (items : list json)
| JDict (items : list (string * json)).

Definition hex_digit (n : nat) : ascii :=
  nth n (list_ascii_of_string "0123456789abcdef") "0"%char.

(** The encoder's escape table: backslash, double quote and the control
    characters below 0x20; every other byte is copied ([ensure_ascii] is
    off, so the bytes of a non-ASCII character are left alone). *)
Definition json_escape_char (c : ascii) : string :=
  let n := nat_of_ascii c in
  if n =? 92 then "\\"
  else if n =? 34 then "\" +:+ DQ
  else if n =? 8 then "\b"
  else if n =? 12 then "\f"
  else if n =? 10 then "\n"
  else if n =? 13 then "\r"
  else if n =? 9 then "\t"
  else if n <? 32 then
    "\u00" +:+ String (hex_digit (n / 16)) (String (hex_digit (n mod 16)) EmptyString)
  else String c EmptyString.

Fixpoint json_escape (s : string) : string :=
  match s with
  | EmptyString => EmptyString
  | String c s' => json_escape_char c +:+ json_escape s'
  end.

Definition json_quote (s : string) : string := DQ +:+ json_escape s +:+ DQ.

Fixpoint json_dumps (j : json) : string :=
  match j with
  | JNull => "null"
  | JBool true => "true"
  | JBool false => "false"
  | JInt z => str_of_int z
  | JStr s => json_quote s
  | JList items => "[" +:+ str_join ", " (List.map json_dumps items) +:+ "]"
  | JDict items =>
      "{" +:+ str_join ", "
                (List.map (fun kv => let '(k, v) := kv in
                                     json_quote k +:+ ": " +:+ json_dumps v) items)
          +:+ "}"
  end.

(** [d.get(key)] on a dictionary literal kept in insertion order. *)
Fixpoint assoc {A} (key : string) (items : list (string * A)) : option A :=
  match items with
  | [] => None
  | (k, v) :: rest => if String.eqb k key then Some v else assoc key rest
  end.

(** ** Messages *)

(** A value of [tool_call["args"]]: whatever JSON the model wrote.  The
    module only ever formats such a value or hands it to a tool whose
    parameters are declared [str], so a value that is not a string (null,
    a number, a boolean, a list, an object) is kept as what [str()] shows
    of it. *)
Inductive arg : Type :=
| ArgStr (s : string)
| ArgOther (shown : string).

(** [str(a)], which is also how an f-string formats [a]. *)
Definition arg_str (a : arg) : string :=
  match a with
  | ArgStr s => s
  | ArgOther shown => shown
  end.

(** One entry of [AIMessage.tool_calls]. *)
Record ToolCall := {
  tc_name : string;
  tc_args : gmap string arg;
  tc_id : string
}.

(** Python objects that end up in an artifact, and the message classes of
    [langchain_core.messages] the module constructs. *)
Inductive pyobj : Type :=
| PStr (s : string)
| POther (shown : string)
| PList (items : list pyobj)
| PDict (items : list (string * pyobj))
| PMessage (m : BaseMessage)
with BaseMessage : Type :=
| HumanMessage (content : string)
| SystemMessage (content : string)
| AIMessage (content : string) (tool_calls : list ToolCall)
| ToolMessage (content : string) (tool_call_id : string)
              (name : option string) (artifact : option pyobj).

Definition msg_content (m : BaseMessage) : string :=
  match m with
  | HumanMessage c | SystemMessage c | AIMessage c _ | ToolMessage c _ _ _ => c
  end.

(** [hasattr(m, 'tool_calls') and m.tool_calls]: only [AIMessage] has the
    attribute. *)
Definition msg_tool_calls (m : BaseMessage) : list ToolCall :=
  match m with
  | AIMessage _ tcs => tcs
  | _ => []
  end.

Definition msg_tool_call_id (m : BaseMessage) : option string :=
  match m with
  | ToolMessage _ i _ _ => Some i
  | _ => None
  end.

Definition msg_name (m : BaseMessage) : option string :=
  match m with
  | ToolMessage _ _ n _ => n
  | _ => None
  end.

Definition msg_artifact (m : BaseMessage) : option pyobj :=
  match m with
  | ToolMessage _ _ _ a => a
  | _ => None
  end.

Definition is_tool_message (m : BaseMessage) : bool :=
  match m with
  | ToolMessage _ _ _ _ => true
  | _ => false
  end.

(** ** The runtime the module runs on, and the effect monad *)

Record Host := {
  (** [str.upper] *)
  str_upper : string -> string;
  (** the [n]-th raw draw of the [random] module *)
  random_source : nat -> nat;
  (** [os.getenv] *)
  getenv : string -> option string;
  (** the [n]-th call of [ChatOpenAI(...).ainvoke]: the reply or a fault *)
  llm_ainvoke : nat -> list BaseMessage -> exn + BaseMessage;
  (** [str(e)] of the error the OpenAI client raises without an API key *)
  openai_error : string;
  (** [str(e)] of the error a tool raises when its input, given as the
      dictionary handed to [invoke], is not valid *)
  validation_error : string -> list (string * arg) -> string;
  (** the step limit the graph library applies to a run: the number of
      steps it allows before it raises; the library accepts no limit
      below one *)
  recursion_limit : positive;
  (** [str(d)] for a dictionary [d] received from the client *)
  str_of_dict : list (string * json) -> string;
  (** [message.model_dump()] *)
  model_dump : BaseMessage -> json
}.

Record World := {
  rng_pos : nat;
  llm_calls : nat;
  (** initial states of the sub-computations started so far, oldest first *)
  subgraph_runs : list pyobj
}.

Definition M (A : Type) : Type := World -> (exn + A) * World.

Definition ret {A} (a : A) : M A := fun w => (inr a, w).

Definition raise {A} (e : exn) : M A := fun w => (inl e, w).

Definition bind {A B} (m : M A) (k : A -> M B) : M B :=
  fun w => match m w with
           | (inr a, w') => k a w'
           | (inl e, w') => (inl e, w')
           end.

Notation "'let*' x ':=' m 'in' k" := (bind m (fun x => k))
  (at level 10, x name, m at level 100, k at level 200).

Definition lift {A} (r : exn + A) : M A :=
  match r with
  | inl e => raise e
  | inr a => ret a
  end.

(** [try: body except Exception as e: handler(e)] *)
Definition try_except {A} (body : M A) (handler : exn -> M A) : M A :=
  fun w => match body w with
           | (inl e, w') => handler e w'
           | (inr a, w') => (inr a, w')
           end.

(** [for x in xs: ys.append(f(x))], stopping at the first exception. *)
Fixpoint for_each {A B} (f : A -> M B) (xs : list A) : M (list B) :=
  match xs with
  | [] => ret []
  | x :: rest =>
      let* y := f x in
      let* ys := for_each f rest in
      ret (y :: ys)
  end.

Definition next_random (h : Host) : M nat :=
  fun w => (inr (random_source h (rng_pos w)),
            {| rng_pos := S (rng_pos w); llm_calls := llm_calls w;
               subgraph_runs := subgraph_runs w |}).

(** [random.randint(a, b)], for [a <= b]. *)
Definition randint (h : Host) (a b : Z) : M Z :=
  let* r := next_random h in
  ret (a + Z.of_nat r mod (b - a + 1))%Z.

(** [random.choice(seq)] *)
Definition choice (h : Host) (seq : list string) : M string :=
  match seq with
  | [] => raise (Exn "IndexError" "Cannot choose from an empty sequence")
  | x :: _ =>
      let* r := next_random h in
      ret (nth (r mod length seq) seq x)
  end.

(** [os.getenv(name)] used as a condition: set and not empty. *)
Definition env_truthy (h : Host) (name : string) : bool :=
  match getenv h name with
  | Some EmptyString | None => false
  | Some _ => true
  end.

(** One call of the chat model. *)
Definition chat_ainvoke (h : Host) (messages : list BaseMessage) : M BaseMessage :=
  fun w => (llm_ainvoke h (llm_calls w) messages,
            {| rng_pos := rng_pos w; llm_calls := S (llm_calls w);
               subgraph_runs := subgraph_runs w |}).

(** [ChatOpenAI(...)]: building the client reads the API key from the
    environment and raises when the variable is not set; nothing is sent
    to the model yet. *)
Definition ChatOpenAI (h : Host) : M unit :=
  match getenv h "OPENAI_API_KEY" with
  | None => raise (Exn "OpenAIError" (openai_error h))
  | Some _ => ret tt
  end.

(** ** The tools *)

Definition conditions : list string :=
  ["sunny"; "cloudy"; "rainy"; "partly cloudy"; "overcast"].

(** The dictionary [weather_data] once every entry has been evaluated. *)
Definition weather_data (location unit condition : string)
    (temp humidity windSpeed : Z) (initial : string) : json :=
  JDict [("location", JStr location);
         ("temperature", JInt temp);
         ("unit", JStr unit);
         ("condition", JStr condition);
         ("humidity", JInt humidity);
         ("windSpeed", JInt windSpeed);
         ("description",
          JStr ("The weather in " +:+ location +:+ " is " +:+ condition
                +:+ " with a temperature of " +:+ str_of_int temp
                +:+ "¬∞" +:+ initial +:+ "."))].

Definition get_weather (h : Host) (location unit : string) : M string :=
  let* temp := randint h 10 30 in
  let* condition := choice h conditions in
  let* humidity := randint h 40 80 in
  let* windSpeed := randint h 5 25 in
  let* u0 := lift (str_index0 unit) in
  ret (json_dumps (weather_data location unit condition temp humidity windSpeed
                                (str_upper h u0))).

Definition products : json :=
  JList [JDict [("id", JInt 1); ("name", JStr "Product 1"); ("price", JInt 100)];
         JDict [("id", JInt 2); ("name", JStr "Product 2"); ("price", JInt 200)];
         JDict [("id", JInt 3); ("name", JStr "Product 3"); ("price", JInt 300)]].

Definition data_table : json :=
  JDict [("data", products);
         ("columns", JList [JStr "id"; JStr "name"; JStr "price"]);
         ("row_id_key", JStr "id");
         ("description", JStr "Products data table")].

Definition search_products (query : string) : M string :=
  ret (json_dumps data_table).

Definition display_graph (plot_type : string) : M string :=
  if String.eqb plot_type "bar" then
    ret (json_dumps
      (JDict [("labels", JList [JStr "Q1"; JStr "Q2"; JStr "Q3"; JStr "Q4"]);
              ("values", JList [JInt 120; JInt 150; JInt 180; JInt 200]);
              ("title", JStr "Quarterly Sales");
              ("xlabel", JStr "Quarter");
              ("ylabel", JStr "Sales (thousands)")]))
  else if String.eqb plot_type "line" then
    ret (json_dumps
      (JDict [("labels", JList [JStr "Jan"; JStr "Feb"; JStr "Mar"; JStr "Apr";
                                JStr "May"; JStr "Jun"]);
              ("values", JList [JInt 45; JInt 52; JInt 48; JInt 61; JInt 55; JInt 67]);
              ("title", JStr "Monthly Revenue Trend");
              ("xlabel", JStr "Month");
              ("ylabel", JStr "Revenue (thousands)")]))
  else if String.eqb plot_type "pie" then
    ret (json_dumps
      (JDict [("labels", JList [JStr "Product A"; JStr "Product B";
                                JStr "Product C"; JStr "Product D"]);
              ("values", JList [JInt 30; JInt 25; JInt 20; JInt 25]);
              ("title", JStr "Product Sales Distribution")]))
  else
    ret (json_dumps (JDict [("error", JStr ("Unsupported plot type: " +:+ plot_type))])).

(** ** State graphs *)

Definition END : string := "__end__".

(** A [StateGraph] under construction: node functions return an update of
    type [U] that the graph merges into its state of type [S]. *)
Record StateGraph (S U : Type) := {
  nodes : list (string * (S -> M U));
  entry_point : option string;
  edges : list (string * string);
  conditional_edges : list (string * ((S -> string) * list (string * string)))
}.
Arguments nodes {S U} _.
Arguments entry_point {S U} _.
Arguments edges {S U} _.
Arguments conditional_edges {S U} _.

Definition new_StateGraph {S U} : StateGraph S U :=
  {| nodes := []; entry_point := None; edges := []; conditional_edges := [] |}.

Definition add_node {S U} (name : string) (f : S -> M U) (g : StateGraph S U) :=
  {| nodes := nodes g ++ [(name, f)]; entry_point := entry_point g;
     edges := edges g; conditional_edges := conditional_edges g |}.

Definition set_entry_point {S U} (name : string) (g : StateGraph S U) :=
  {| nodes := nodes g; entry_point := Some name;
     edges := edges g; conditional_edges := conditional_edges g |}.

Definition add_edge {S U} (src dst : string) (g : StateGraph S U) :=
  {| nodes := nodes g; entry_point := entry_point g;
     edges := edges g ++ [(src, dst)]; conditional_edges := conditional_edges g |}.

Definition add_conditional_edges {S U} (src : string) (path : S -> string)
    (path_map : list (string * string)) (g : StateGraph S U) :=
  {| nodes := nodes g; entry_point := entry_point g; edges := edges g;
     conditional_edges := conditional_edges g ++ [(src, (path, path_map))] |}.

(** The node that runs after [node] has produced [state]. *)
Definition successor {S U} (g : StateGraph S U) (node : string) (state : S)
    : option string :=
  match assoc node (conditional_edges g) with
  | Some (path, path_map) => assoc (path state) path_map
  | None => assoc node (edges g)
  end.

(** Running a graph from [node]: call the node, merge its update, follow the
    outgoing edge; [limit] bounds the number of steps, as the library's
    recursion limit does. *)
Fixpoint run_from {S U} (limit : nat) (g : StateGraph S U) (merge : S -> U -> S)
    (node : string) (state : S) : M S :=
  if String.eqb node END then ret state
  else
    match limit with
    | O => raise (Exn "GraphRecursionError" "Recursion limit reached")
    | Datatypes.S limit' =>
        match assoc node (nodes g) with
        | None => raise (Exn "ValueError" ("Unknown node " +:+ node))
        | Some f =>
            let* update := f state in
            let state' := merge state update in
            match successor g node state' with
            | None => ret state'
            | Some next => run_from limit' g merge next state'
            end
        end
    end.

Definition ainvoke {S U} (h : Host) (g : StateGraph S U) (merge : S -> U -> S)
    (input : S) : M S :=
  match entry_point g with
  | None => raise (Exn "ValueError" "Graph must have an entrypoint")
  | Some start => run_from (Pos.to_nat (recursion_limit h)) g merge start input
  end.

(** ** The sub-computation *)

Record SubagentState := {
  sub_messages : list BaseMessage;
  sub_task : arg;
  sub_result : string
}.

(** What [subagent_node] returns: the keys [messages] and [result]. *)
Record SubagentUpdate := {
  upd_messages : list BaseMessage;
  upd_result : string
}.

Definition arg_obj (a : arg) : pyobj :=
  match a with
  | ArgStr s => PStr s
  | ArgOther shown => POther shown
  end.

(** The state as the dictionary it is at run time. *)
Definition state_obj (s : SubagentState) : pyobj :=
  PDict [("messages", PList (List.map PMessage (sub_messages s)));
         ("task", arg_obj (sub_task s));
         ("result", PStr (sub_result s))].

(** The channel reducers: [add_messages] on [messages], overwrite on
    [result]; [task] is not written by the node. *)
Definition merge_subagent (s : SubagentState) (u : SubagentUpdate) : SubagentState :=
  {| sub_messages := sub_messages s ++ upd_messages u;
     sub_task := sub_task s;
     sub_result := upd_result u |}.

Definition subagent_node (h : Host) (state : SubagentState) : M SubagentUpdate :=
  let task := arg_str (sub_task state) in
  let* llm := ChatOpenAI h in
  let subagent_messages :=
    [SystemMessage ("You are a helpful subagent. Execute this task: " +:+ task);
     HumanMessage ("Please complete the following task: " +:+ task)] in
  let* result :=
    if env_truthy h "OPENAI_API_KEY" then
      let* response := chat_ainvoke h subagent_messages in
      ret (msg_content response)
    else ret ("Mock subagent result for task: " +:+ task) in
  ret {| upd_messages := [AIMessage result []]; upd_result := result |}.

Definition create_subagent_graph (h : Host) : StateGraph SubagentState SubagentUpdate :=
  let workflow := new_StateGraph in
  let workflow := add_node "execute_task" (subagent_node h) workflow in
  let workflow := set_entry_point "execute_task" workflow in
  let workflow := add_edge "execute_task" END workflow in
  workflow.

(** The world once a sub-computation has been started on [s]. *)
Definition with_log (w : World) (s : SubagentState) : World :=
  {| rng_pos := rng_pos w; llm_calls := llm_calls w;
     subgraph_runs := subgraph_runs w ++ [state_obj s] |}.

(** Record that a sub-computation was started on [state]. *)
Definition log_subgraph_start (state : SubagentState) : M unit :=
  fun w => (inr tt, with_log w state).

(** The state the tools node starts a delegation from. *)
Definition delegation_input (tool_call : ToolCall) : SubagentState :=
  {| sub_messages := [];
     sub_task := default (ArgStr "") (tc_args tool_call !! "task_description");
     sub_result := "" |}.

(** [subagent_graph.ainvoke(state)] *)
Definition subagent_graph (h : Host) (state : SubagentState) : M SubagentState :=
  let* _ := log_subgraph_start state in
  ainvoke h (create_subagent_graph h) merge_subagent state.

(** ** The main graph: nodes and routing *)

Record GraphState := { messages : list BaseMessage }.

Definition merge_messages (s : GraphState) (u : list BaseMessage) : GraphState :=
  {| messages := messages s ++ u |}.

Definition system_message : BaseMessage :=
  SystemMessage
    ("When you call a tool and receive a result, the result is automatically displayed in the UI. "
     +:+ "DO NOT repeat, explain, or output the tool's result data in your response. "
     +:+ "DO NOT output JSON data, base64-encoded data, or raw tool results. "
     +:+ "DO NOT format tool results as Markdown images (e.g., ![title](data:image/...)) or code blocks. "
     +:+ "Simply acknowledge that the requested action has been completed. "
     +:+ "For display_graph tool: The graph is already displayed in the UI component, so just confirm it was displayed.").

Definition is_system_message (m : BaseMessage) : bool :=
  match m with
  | SystemMessage _ => true
  | _ => false
  end.

Definition mock_response : BaseMessage :=
  AIMessage "I'll help you with that task."
    [{| tc_name := "task_tool";
        tc_args := {["task_description" := ArgStr "Complete the requested task"]};
        tc_id := "task_001" |}].

(** [llm.bind_tools(tools)]: the client with the schemas of the tools
    attached; nothing is sent to the model and nothing fails. *)
Definition bind_tools (llm : unit) (tools : list string) : unit := llm.

Definition agent_node (h : Host) (state : GraphState) : M (list BaseMessage) :=
  let* llm := ChatOpenAI h in
  let llm_with_tools :=
    bind_tools llm ["task_tool"; "get_weather"; "search_products"; "display_graph"] in
  let messages_list := messages state in
  let messages_with_system :=
    if negb (existsb is_system_message messages_list)
    then system_message :: messages_list
    else messages_list in
  let* response :=
    if env_truthy h "OPENAI_API_KEY" then chat_ainvoke h messages_with_system
    else ret mock_response in
  ret [response].

Definition should_call_tools (state : GraphState) : string :=
  match last (messages state) with
  | None => "end"
  | Some last_message =>
      match msg_tool_calls last_message with
      | _ :: _ => "tools"
      | [] => "end"
      end
  end.

(** The error [tool.invoke(input)] raises, before the function of the tool
    is called, when a parameter declared [str] is given something else. *)
Definition invalid_input (h : Host) (tool : string) (input : list (string * arg)) : exn :=
  Exn "ValidationError" (validation_error h tool input).

(** [get_weather.invoke({"location": location, "unit": unit})] *)
Definition get_weather_tool (h : Host) (location unit : arg) : M string :=
  match location, unit with
  | ArgStr l, ArgStr u => get_weather h l u
  | _, _ => raise (invalid_input h "get_weather" [("location", location); ("unit", unit)])
  end.

(** [search_products.invoke({"query": query})] *)
Definition search_products_tool (h : Host) (query : arg) : M string :=
  match query with
  | ArgStr q => search_products q
  | _ => raise (invalid_input h "search_products" [("query", query)])
  end.

(** [display_graph.invoke({"plot_type": plot_type})] *)
Definition display_graph_tool (h : Host) (plot_type : arg) : M string :=
  match plot_type with
  | ArgStr p => display_graph p
  | _ => raise (invalid_input h "display_graph" [("plot_type", plot_type)])
  end.

(** The module-level names the tools node refers to. *)
Record Globals := {
  get_weather_invoke : arg -> arg -> M string;
  search_products_invoke : arg -> M string;
  display_graph_invoke : arg -> M string;
  subagent_graph_ainvoke : SubagentState -> M SubagentState
}.

Definition module_globals (h : Host) : Globals :=
  {| get_weather_invoke := get_weather_tool h;
     search_products_invoke := search_products_tool h;
     display_graph_invoke := display_graph_tool h;
     subagent_graph_ainvoke := subagent_graph h |}.

(** The body of the loop of [tool_executor_node] for one tool call. *)
Definition dispatch (g : Globals) (tool_call : ToolCall) : M BaseMessage :=
  let name := tc_name tool_call in
  let args := tc_args tool_call in
  let id := tc_id tool_call in
  if String.eqb name "task_tool" then
    let task_description := default (ArgStr "") (args !! "task_description") in
    let subagent_state :=
      {| sub_messages := []; sub_task := task_description; sub_result := "" |} in
    let* final_state := subagent_graph_ainvoke g subagent_state in
    ret (ToolMessage (sub_result final_state) id (Some name)
           (Some (PDict [("subgraph_state", state_obj final_state)])))
  else if String.eqb name "get_weather" then
    let location := default (ArgStr "unknown") (args !! "location") in
    let unit := default (ArgStr "celsius") (args !! "unit") in
    try_except
      (let* weather_result := get_weather_invoke g location unit in
       ret (ToolMessage weather_result id (Some name) None))
      (fun e =>
         let error_message :=
           "Error fetching weather for " +:+ arg_str location +:+ ": "
           +:+ exn_str e in
         ret (ToolMessage error_message id (Some name) None))
  else if String.eqb name "search_products" then
    let query := default (ArgStr "") (args !! "query") in
    try_except
      (let* search_products_result := search_products_invoke g query in
       ret (ToolMessage search_products_result id (Some name) None))
      (fun e =>
         let error_message :=
           "Error searching products for " +:+ arg_str query +:+ ": "
           +:+ exn_str e in
         ret (ToolMessage error_message id (Some name) None))
  else if String.eqb name "display_graph" then
    let plot_type := default (ArgStr "bar") (args !! "plot_type") in
    try_except
      (let* graph_result := display_graph_invoke g plot_type in
       ret (ToolMessage graph_result id (Some name) None))
      (fun e =>
         let error_message :=
           "Error displaying graph with plot_type " +:+ arg_str plot_type +:+ ": "
           +:+ exn_str e in
         ret (ToolMessage error_message id (Some name) None))
  else
    ret (ToolMessage ("Executed tool " +:+ name) id (Some name) None).

Definition tool_executor_node (g : Globals) (state : GraphState) : M (list BaseMessage) :=
  match last (messages state) with
  | None => ret []
  | Some last_message =>
      match msg_tool_calls last_message with
      | [] => ret []
      | tool_calls => for_each (dispatch g) tool_calls
      end
  end.

Definition create_graph (h : Host) : StateGraph GraphState (list BaseMessage) :=
  let workflow := new_StateGraph in
  let workflow := add_node "agent" (agent_node h) workflow in
  let workflow := add_node "tools" (tool_executor_node (module_globals h)) workflow in
  let workflow := set_entry_point "agent" workflow in
  let workflow :=
    add_conditional_edges "agent" should_call_tools
      [("tools", "tools"); ("end", END)] workflow in
  let workflow := add_edge "tools" "agent" workflow in
  workflow.

(** The three tools the node runs under [try]/[except]: for a call to one
    of them, the invocation of the underlying function that the node makes
    and the text that opens its error message. *)
Definition backend_invocation (g : Globals) (tool_call : ToolCall)
    : option (M string * string) :=
  let args := tc_args tool_call in
  if String.eqb (tc_name tool_call) "get_weather" then
    Some (get_weather_invoke g (default (ArgStr "unknown") (args !! "location"))
                             (default (ArgStr "celsius") (args !! "unit")),
          "Error fetching weather for "
          +:+ arg_str (default (ArgStr "unknown") (args !! "location")))
  else if String.eqb (tc_name tool_call) "search_products" then
    Some (search_products_invoke g (default (ArgStr "") (args !! "query")),
          "Error searching products for "
          +:+ arg_str (default (ArgStr "") (args !! "query")))
  else if String.eqb (tc_name tool_call) "display_graph" then
    Some (display_graph_invoke g (default (ArgStr "bar") (args !! "plot_type")),
          "Error displaying graph with plot_type "
          +:+ arg_str (default (ArgStr "bar") (args !! "plot_type")))
  else None.

(** A tool message that answers the call [tc]: it carries its id and name. *)
Definition answers_call (tc : ToolCall) (m : BaseMessage) : Prop :=
  exists content artifact,
    m = ToolMessage content (tc_id tc) (Some (tc_name tc)) artifact.


(** The latest message of the state carries at least one tool call. *)
Definition carries_tool_call (st : GraphState) : Prop :=
  exists pre c tc tcs, messages st = pre ++ [AIMessage c (tc :: tcs)].

(** ** The request and the run callback *)

Record MessagePart := {
  part_type : string;
  part_text : option string;
  part_image : option string
}.

Record UserMessage := {
  um_role : string;
  um_parts : list MessagePart
}.

(** The two command classes.  Both carry a free-form [type] string, which is
    what [run_callback] tests. *)
Inductive Command : Type :=
| AddMessageCommand (type : string) (message : UserMessage)
| AddToolResultCommand (type : string) (toolCallId : string)
                       (result : list (string * json)).

Definition command_type (c : Command) : string :=
  match c with
  | AddMessageCommand t _ => t
  | AddToolResultCommand t _ _ => t
  end.

Record ChatRequest := {
  commands : list Command;
  system : option string;
  tools : option (gmap string json);
  runConfig : option (gmap string json);
  state : option (gmap string json)
}.

(** [[part.text for part in parts if part.type == "text" and part.text]] *)
Definition text_parts (message : UserMessage) : list string :=
  omap (fun part =>
          if String.eqb (part_type part) "text" then
            match part_text part with
            | Some (String c s) => Some (String c s)
            | _ => None
            end
          else None)
       (um_parts message).

Definition no_attribute (cls attr : string) : exn :=
  Exn "AttributeError"
      ("'" +:+ cls +:+ "' object has no attribute '" +:+ attr +:+ "'").

(** What one iteration of the loop over [request.commands] appends to
    [input_messages]. *)
Definition command_messages (h : Host) (command : Command) : exn + list BaseMessage :=
  if String.eqb (command_type command) "add-message" then
    match command with
    | AddMessageCommand _ message =>
        match text_parts message with
        | [] => inr []
        | parts => inr [HumanMessage (str_join " " parts)]
        end
    | AddToolResultCommand _ _ _ =>
        inl (no_attribute "AddToolResultCommand" "message")
    end
  else if String.eqb (command_type command) "add-tool-result" then
    match command with
    | AddToolResultCommand _ toolCallId result =>
        inr [ToolMessage (str_of_dict h result) toolCallId None None]
    | AddMessageCommand _ _ =>
        inl (no_attribute "AddMessageCommand" "result")
    end
  else inr [].

Fixpoint process_commands (h : Host) (cmds : list Command)
    (input_messages : list BaseMessage) : exn + list BaseMessage :=
  match cmds with
  | [] => inr input_messages
  | command :: rest =>
      match command_messages h command with
      | inl e => inl e
      | inr new => process_commands h rest (input_messages ++ new)
      end
  end.

(** Lines 570-573: [controller.state] is made a dictionary that has the key
    [messages]. *)
Definition init_controller_state (controller_state : option (gmap string json))
    : gmap string json :=
  let st := match controller_state with
            | None => ∅
            | Some d => d
            end in
  match st !! "messages" with
  | None => <["messages" := JList []]> st
  | Some _ => st
  end.

(** [controller.state["messages"].append(x)] *)
Definition append_state_message (st : gmap string json) (x : json)
    : exn + gmap string json :=
  match st !! "messages" with
  | Some (JList l) => inr (<["messages" := JList (l ++ [x])]> st)
  | Some _ => inl (Exn "AttributeError" "object has no attribute 'append'")
  | None => inl (Exn "KeyError" "'messages'")
  end.

Fixpoint append_input_messages (h : Host) (st : gmap string json)
    (input_messages : list BaseMessage) : exn + gmap string json :=
  match input_messages with
  | [] => inr st
  | message :: rest =>
      match append_state_message st (model_dump h message) with
      | inl e => inl e
      | inr st' => append_input_messages h st' rest
      end
  end.

(** [run_callback] up to the point where the graph is started: the state of
    the controller and the [input_state] handed to [graph.astream]. *)
Definition run_callback_prepare (h : Host) (request : ChatRequest)
    : exn + (gmap string json * GraphState) :=
  let st := init_controller_state (state request) in
  match process_commands h (commands request) [] with
  | inl e => inl e
  | inr input_messages =>
      match append_input_messages h st input_messages with
      | inl e => inl e
      | inr st' => inr (st', {| messages := input_messages |})
      end
  end.

(** ** The event adapter

    [run_callback] hands every event of the graph's stream to two functions
    of the [assistant_stream] package, [get_tool_call_subgraph_state] and
    [append_langgraph_event]; their text is not part of [src/], and neither
    is any code that tells the adapter which tool call a sub-computation
    belongs to.  Everything in this module beyond the shape of the loop of
    [run_callback] is modelled from the specification of the adapter
    (sections 3, 4.3, 4.4 and 7). *)

Module Adapter.

Inductive Role : Type := user | assistant | tool.

(** A requested invocation: [buffer] collects the streamed argument
    fragments, [arguments] is set once the call is complete. *)
Record ToolCallRequest := {
  call_id : string;
  call_name : string;
  buffer : string;
  arguments : option json
}.

Inductive Message : Type :=
  mkMessage {
    role : Role;
    content : string;
    toolCalls : list ToolCallRequest;
    toolCallId : option string;
    (** the nested container of a delegated sub-computation *)
    artifact : option (list Message)
  }.

(** A namespace: (step-name, invocation-id) pairs, empty for the root. *)
Definition Namespace : Type := list (string * string).

Inductive Payload : Type :=
| NewMessage (r : Role)
| TextDelta (fragment : string)
| ToolCallOpened (id name : string)
| ToolCallArgDelta (id fragment : string) (terminating : bool)
| StepUpdate (finished : list Message).

Record Event := {
  namespace : Namespace;
  payload : Payload
}.

(** The run state tree and the adapter's bookkeeping. *)
Record State := {
  (** [RunState.messages] *)
  messages : list Message;
  (** sub-computation invocation-id to originating tool-call-id *)
  origin : gmap string string;
  (** placeholder containers, by invocation-id *)
  pending : gmap string (list Message);
  (** index of the stub under construction, per container: [None] is the
      top-level list, [Some inv] the container of invocation [inv] *)
  stubs : gmap (option string) nat
}.

(** Where an event is applied. *)
Inductive Target : Type :=
| Top
| Nested (index : nat)
| Placeholder (inv : string).

(** The part of a message a sub-computation has no business with: all of
    it but the artifact. *)
Definition skeleton (m : Message) : Role * string * list ToolCallRequest * option string :=
  (role m, content m, toolCalls m, toolCallId m).

Definition set_artifact (c : list Message) (m : Message) : Message :=
  {| role := role m; content := content m; toolCalls := toolCalls m;
     toolCallId := toolCallId m; artifact := Some c |}.

Definition answers (tcid : string) (m : Message) : bool :=
  match role m, toolCallId m with
  | tool, Some i => String.eqb i tcid
  | _, _ => false
  end.

Definition is_assistant (m : Message) : bool :=
  match role m with
  | assistant => true
  | _ => false
  end.

(** The assistant message [m] carries a request with the id [tcid]. *)
Definition requests (tcid : string) (m : Message) : bool :=
  existsb (fun c => String.eqb (call_id c) tcid) (toolCalls m).

(** Index of the most recent assistant message of [msgs], whose first
    element has index [base]. *)
Fixpoint last_assistant_from (base : nat) (msgs : list Message) : option nat :=
  match msgs with
  | [] => None
  | m :: rest =>
      match last_assistant_from (S base) rest with
      | Some p => Some p
      | None => if is_assistant m then Some base else None
      end
  end.

Definition last_assistant (msgs : list Message) : option nat :=
  last_assistant_from 0 msgs.

(** Index of the first tool message of [msgs] that answers [tcid]; the
    first element of [msgs] has index [base]. *)
Fixpoint answer_from (base : nat) (tcid : string) (msgs : list Message) : option nat :=
  match msgs with
  | [] => None
  | m :: rest =>
      if answers tcid m then Some base else answer_from (S base) tcid rest
  end.

(** Modelled from the spec: the resolution rule of section 4.3, step 1.
    The tool-call id must be the id of a request of the most recent
    assistant message; the container belongs to the tool message that
    answers that request, which comes after that assistant message.  Tool
    messages of earlier turns are not looked at, whatever their id. *)
Definition locate (tcid : string) (msgs : list Message) : option nat :=
  match last_assistant msgs with
  | None => None
  | Some p =>
      match msgs !! p with
      | Some am =>
          if requests tcid am
          then answer_from (S p) tcid (drop (S p) msgs)
          else None
      | None => None
      end
  end.



Definition ns_key (ns : Namespace) : option string :=
  match ns with
  | [] => None
  | (_, inv) :: _ => Some inv
  end.

(** Modelled from the spec: section 4.4 has the dispatch layer register
    the mapping from the invocation-id of a sub-computation it starts to
    the id of the tool call, before the first event of that invocation;
    [tool_executor_node] has no such step, and nothing under [src/] calls
    one. *)
Definition register (inv tcid : string) (s : State) : State :=
  {| messages := messages s; origin := <[inv := tcid]> (origin s);
     pending := pending s; stubs := stubs s |}.

Definition placeholder (inv : string) (s : State) : State * Target :=
  ({| messages := messages s; origin := origin s;
      pending := match pending s !! inv with
                 | Some _ => pending s
                 | None => <[inv := []]> (pending s)
                 end;
      stubs := stubs s |},
   Placeholder inv).

(** Modelled from the spec: the text of [get_tool_call_subgraph_state] is
    missing; this is step 1 of the adapter's algorithm, "resolve target
    container".  An empty namespace resolves to the top-level list.
    Otherwise the invocation-id of the first segment is looked up in the
    mapping filled at dispatch time and matched, by [locate], to a request
    of the most recent assistant message; the container is the artifact of
    the tool message that answers that request, created on first use from
    the placeholder, if there is one.  Without a mapping, without a
    matching request, or while that tool message does not exist, the
    container is a pending placeholder; what is still pending when the
    stream ends makes the run fail, see [finish]. *)
Definition get_tool_call_subgraph_state (s : State) (ns : Namespace) : State * Target :=
  match ns_key ns with
  | None => (s, Top)
  | Some inv =>
      match origin s !! inv with
      | None => placeholder inv s
      | Some tcid =>
          match locate tcid (messages s) with
          | None => placeholder inv s
          | Some i =>
              ({| messages :=
                    alter (fun m =>
                             match artifact m with
                             | Some _ => m
                             | None => set_artifact (default [] (pending s !! inv)) m
                             end) i (messages s);
                  origin := origin s;
                  pending := delete inv (pending s);
                  stubs := stubs s |},
               Nested i)
          end
      end
  end.

Definition container (s : State) (t : Target) : list Message :=
  match t with
  | Top => messages s
  | Nested i => default [] (messages s !! i ≫= artifact)
  | Placeholder inv => default [] (pending s !! inv)
  end.

Definition stub_message (r : Role) : Message :=
  {| role := r; content := ""; toolCalls := []; toolCallId := None;
     artifact := None |}.

Definition append_text (fragment : string) (m : Message) : Message :=
  {| role := role m; content := content m +:+ fragment;
     toolCalls := toolCalls m; toolCallId := toolCallId m;
     artifact := artifact m |}.

Definition open_call (id name : string) (m : Message) : Message :=
  {| role := role m; content := content m;
     toolCalls := toolCalls m ++
                  [{| call_id := id; call_name := name; buffer := "";
                      arguments := None |}];
     toolCallId := toolCallId m; artifact := artifact m |}.


Section Policy.

(** How a complete argument buffer is parsed, and the object that marks
    a buffer that does not parse: both are policies of the deployment. *)
Variable parse_arguments : string -> option json.
Variable error_arguments : json.

Definition extend_call (id fragment : string) (terminating : bool)
    (c : ToolCallRequest) : ToolCallRequest :=
  if String.eqb (call_id c) id then
    let buf := buffer c +:+ fragment in
    {| call_id := call_id c; call_name := call_name c; buffer := buf;
       arguments := if terminating
                    then Some (default error_arguments (parse_arguments buf))
                    else arguments c |}
  else c.

Definition extend_arguments (id fragment : string) (terminating : bool)
    (m : Message) : Message :=
  {| role := role m; content := content m;
     toolCalls := List.map (extend_call id fragment terminating) (toolCalls m);
     toolCallId := toolCallId m; artifact := artifact m |}.

(** A finished message meets its stub: fields the deltas have not
    populated are taken from the finished message. *)
Definition reconcile (finished m : Message) : Message :=
  {| role := role m;
     content := match content m with
                | EmptyString => content finished
                | c => c
                end;
     toolCalls := match toolCalls m with
                  | [] => toolCalls finished
                  | tcs => tcs
                  end;
     toolCallId := match toolCallId m with
                   | None => toolCallId finished
                   | i => i
                   end;
     artifact := match artifact m with
                 | None => artifact finished
                 | a => a
                 end |}.

Definition on_stub (stub : option nat) (f : Message -> Message)
    (c : list Message) : list Message :=
  match stub with
  | Some i => alter f i c
  | None => c
  end.

(** Step 2 of the algorithm, "apply by kind", on one container and the
    index of its stub. *)
Definition apply_payload (p : Payload) (c : list Message) (stub : option nat)
    : list Message * option nat :=
  match p with
  | NewMessage r => (c ++ [stub_message r], Some (length c))
  | TextDelta fragment => (on_stub stub (append_text fragment) c, stub)
  | ToolCallOpened id name => (on_stub stub (open_call id name) c, stub)
  | ToolCallArgDelta id fragment terminating =>
      (on_stub stub (extend_arguments id fragment terminating) c, stub)
  | StepUpdate finished =>
      match finished, stub with
      | m :: rest, Some i =>
          if decide (i < length c)
          then (alter (reconcile m) i c ++ rest, None)
          else (c ++ finished, None)
      | _, _ => (c ++ finished, None)
      end
  end.

Definition store (s : State) (t : Target) (key : option string)
    (c : list Message) (stub : option nat) : State :=
  {| messages := match t with
                 | Top => c
                 | Nested i => alter (set_artifact c) i (messages s)
                 | Placeholder _ => messages s
                 end;
     origin := origin s;
     pending := match t with
                | Placeholder inv => <[inv := c]> (pending s)
                | _ => pending s
                end;
     stubs := match stub with
              | Some i => <[key := i]> (stubs s)
              | None => delete key (stubs s)
              end |}.

(** Modelled from the spec: the text of [append_langgraph_event] is
    missing; this is step 2 of the adapter's algorithm applied to the
    container that step 1 resolved. *)
Definition append_langgraph_event (s : State) (t : Target) (e : Event) : State :=
  let key := ns_key (namespace e) in
  let '(c, stub) := apply_payload (payload e) (container s t) (stubs s !! key) in
  store s t key c stub.

(** What the adapter sees during a run, in order.  [Emitted] is an event
    of the graph's stream, as the loop of [run_callback] receives it.
    [Dispatched] is modelled from the spec: the registration of section
    4.4 (see [register]), which no code under [src/] performs; a run of
    the module as it is has no such step. *)
Inductive Step : Type :=
| Dispatched (inv tcid : string)
| Emitted (e : Event).

(** For [Emitted], the body of the loop of [run_callback] (lines 606-624):
    resolve the state of the event's namespace, then append the event to
    it.  For [Dispatched], the registration of the spec. *)
Definition step (s : State) (x : Step) : State :=
  match x with
  | Dispatched inv tcid => register inv tcid s
  | Emitted e =>
      let '(s', t) := get_tool_call_subgraph_state s (namespace e) in
      append_langgraph_event s' t e
  end.


(** How a run ends. *)
Inductive ErrorKind : Type := UpstreamFault | CorrelationFault.

Inductive Outcome : Type :=
| Completed
| Failed (kind : ErrorKind).

(** Modelled from the spec: step 4 of the algorithm and section 7.  When
    the stream is exhausted the run completes, unless events of a
    sub-computation are still parked in a placeholder: the end of the
    stream is the end of the grace period, and what could not be
    correlated by then is a [CorrelationFault], not dropped. *)
Definition finish (s : State) : Outcome :=
  if decide (pending s = ∅) then Completed else Failed CorrelationFault.


End Policy.

(** A run in which one assistant message delegated twice, to [A] and to
    [B], and both tool messages exist. *)
Definition assistant_message_AB : Message :=
  {| role := assistant; content := "";
     toolCalls := [{| call_id := "A"; call_name := "task_tool"; buffer := "";
                      arguments := Some (JDict [("task_description", JStr "first")]) |};
                   {| call_id := "B"; call_name := "task_tool"; buffer := "";
                      arguments := Some (JDict [("task_description", JStr "second")]) |}];
     toolCallId := None; artifact := None |}.

Definition tool_message_A : Message :=
  {| role := tool; content := ""; toolCalls := []; toolCallId := Some "A";
     artifact := None |}.

Definition tool_message_B : Message :=
  {| role := tool; content := ""; toolCalls := []; toolCallId := Some "B";
     artifact := None |}.

Definition two_delegations : State :=
  {| messages := [assistant_message_AB; tool_message_A; tool_message_B];
     origin := {["run-A" := "A"; "run-B" := "B"]};
     pending := ∅;
     stubs := ∅ |}.

Definition event_of_A : Event :=
  {| namespace := [("tools", "run-A")]; payload := NewMessage assistant |}.

(** A run of two turns that both use the tool-call id [task_001]: the
    first delegation is answered, the second is under way and has no tool
    message yet. *)
Definition assistant_message_task : Message :=
  {| role := assistant; content := "";
     toolCalls := [{| call_id := "task_001"; call_name := "task_tool"; buffer := "";
                      arguments := Some (JDict [("task_description", JStr "again")]) |}];
     toolCallId := None; artifact := None |}.

Definition tool_message_first_turn : Message :=
  {| role := tool; content := "done"; toolCalls := []; toolCallId := Some "task_001";
     artifact := Some [] |}.

Definition second_turn : State :=
  {| messages := [assistant_message_task; tool_message_first_turn; assistant_message_task];
     origin := {["run-1" := "task_001"; "run-2" := "task_001"]};
     pending := ∅;
     stubs := ∅ |}.

Definition event_of_second_turn : Event :=
  {| namespace := [("tools", "run-2")]; payload := NewMessage assistant |}.

(** The same run once the second delegation has its tool message. *)
Definition tool_message_second_turn : Message :=
  {| role := tool; content := ""; toolCalls := []; toolCallId := Some "task_001";
     artifact := None |}.

Definition second_turn_answered : State :=
  {| messages := messages second_turn ++ [tool_message_second_turn];
     origin := origin second_turn;
     pending := ∅;
     stubs := ∅ |}.

End Adapter.

(** ** Reading back what [json.dumps] wrote

    A decoder for the JSON texts the tools produce at top level: an object
    whose values are strings or integers, in the layout of [json.dumps]
    (one space after each colon and comma).  It is the observer used to say
    what a field of a tool result "is". *)

Definition hex_value (c : ascii) : option nat :=
  let n := nat_of_ascii c in
  if (48 <=? n) && (n <=? 57) then Some (n - 48)
  else if (97 <=? n) && (n <=? 102) then Some (n - 87)
  else if (65 <=? n) && (n <=? 70) then Some (n - 55)
  else None.

(** The character a backslash followed by [c] stands for. *)
Definition unescape_char (c : ascii) : option ascii :=
  let n := nat_of_ascii c in
  if n =? 92 then Some c
  else if n =? 34 then Some c
  else if n =? 47 then Some c
  else if n =? 98 then Some (ascii_of_nat 8)
  else if n =? 102 then Some (ascii_of_nat 12)
  else if n =? 110 then Some (ascii_of_nat 10)
  else if n =? 114 then Some (ascii_of_nat 13)
  else if n =? 116 then Some (ascii_of_nat 9)
  else None.

Definition prepend (c : ascii) (r : option (string * string)) : option (string * string) :=
  match r with
  | Some (s, rest) => Some (String c s, rest)
  | None => None
  end.

(** Reads a string literal after its opening quote: the decoded string and
    the text after the closing quote.  Of the [\u] escapes only those of a
    single byte are read. *)
Fixpoint read_string (s : string) : option (string * string) :=
  match s with
  | EmptyString => None
  | String c rest =>
      let n := nat_of_ascii c in
      if n =? 34 then Some (EmptyString, rest)
      else if n =? 92 then
        match rest with
        | EmptyString => None
        | String e rest1 =>
            if nat_of_ascii e =? 117 then
              match rest1 with
              | String a (String b (String x (String y rest2))) =>
                  match hex_value a, hex_value b, hex_value x, hex_value y with
                  | Some 0, Some 0, Some hi, Some lo =>
                      prepend (ascii_of_nat (16 * hi + lo)) (read_string rest2)
                  | _, _, _, _ => None
                  end
              | _ => None
              end
            else
              match unescape_char e with
              | Some ch => prepend ch (read_string rest1)
              | None => None
              end
        end
      else if n <? 32 then None
      else prepend c (read_string rest)
  end.

Definition is_number_char (c : ascii) : bool :=
  let n := nat_of_ascii c in
  (n =? 45) || ((48 <=? n) && (n <=? 57)).

(** The longest prefix made of digits and minus signs, and the rest. *)
Fixpoint span_number (s : string) : string * string :=
  match s with
  | EmptyString => (EmptyString, EmptyString)
  | String c rest =>
      if is_number_char c then
        let '(d, r) := span_number rest in (String c d, r)
      else (EmptyString, s)
  end.

Definition read_int (s : string) : option (Z * string) :=
  let '(d, rest) := span_number s in
  match NilZero.int_of_string d with
  | Some i =>
      if String.eqb (str_of_int (Z.of_int i)) d then Some (Z.of_int i, rest) else None
  | None => None
  end.

Definition read_value (s : string) : option (json * string) :=
  match s with
  | EmptyString => None
  | String c rest =>
      if nat_of_ascii c =? 34 then
        match read_string rest with
        | Some (v, r) => Some (JStr v, r)
        | None => None
        end
      else
        match read_int s with
        | Some (z, r) => Some (JInt z, r)
        | None => None
        end
  end.

(** Reads [fuel] members at most, up to and including the closing brace. *)
Fixpoint read_members (fuel : nat) (s : string) : option (list (string * json) * string) :=
  match fuel with
  | O => None
  | S fuel' =>
      match s with
      | String q s1 =>
          if nat_of_ascii q =? 34 then
            match read_string s1 with
            | Some (k, String ":" (String " " s2)) =>
                match read_value s2 with
                | Some (v, String "}" s3) => Some ([(k, v)], s3)
                | Some (v, String "," (String " " s3)) =>
                    match read_members fuel' s3 with
                    | Some (kvs, s4) => Some ((k, v) :: kvs, s4)
                    | None => None
                    end
                | _ => None
                end
            | _ => None
            end
          else None
      | EmptyString => None
      end
  end.

Definition json_loads_flat (s : string) : option (list (string * json)) :=
  match s with
  | String "{" (String "}" EmptyString) => Some []
  | String "{" s1 =>
      match read_members (String.length s) s1 with
      | Some (kvs, EmptyString) => Some kvs
      | _ => None
      end
  | _ => None
  end.

(** The value of the field [key] of the JSON object written in [s]. *)
Definition json_field (key s : string) : option json :=
  json_loads_flat s ≫= assoc key.

Definition is_flat (j : json) : bool :=
  match j with
  | JStr _ | JInt _ => true
  | _ => false
  end.

(** What may follow a value: the end of the text, or a character that is
    not part of a number. *)
Definition ends_number (rest : string) : Prop :=
  match rest with
  | EmptyString => True
  | String c _ => is_number_char c = false
  end.

(** ** A concrete host, for running the definitions *)

Definition ascii_upper (c : ascii) : ascii :=
  let n := nat_of_ascii c in
  if (97 <=? n) && (n <=? 122) then ascii_of_nat (n - 32) else c.

(** [str.upper] on ASCII text. *)
Fixpoint upper (s : string) : string :=
  match s with
  | EmptyString => EmptyString
  | String c rest => String (ascii_upper c) (upper rest)
  end.

(** The text of the client's error and of a validation error, shortened. *)
Definition sample_openai_error : string :=
  "The api_key client option must be set either by passing api_key to the client or by setting the OPENAI_API_KEY environment variable".

Definition sample_validation_error (tool : string) (input : list (string * arg)) : string :=
  "1 validation error for " +:+ tool.

(** A host with an empty environment: no client for the chat model can be
    built; the random source is an arithmetic sequence, and the library
    renderings are reduced to the fields used here. *)
Definition sample_host : Host :=
  {| str_upper := upper;
     random_source := fun n => 7 * n + 3;
     getenv := fun _ => None;
     llm_ainvoke := fun _ _ => inl (Exn "APIConnectionError" "Connection error.");
     openai_error := sample_openai_error;
     validation_error := sample_validation_error;
     recursion_limit := 25%positive;
     str_of_dict := fun d => match d with [] => "{}" | _ => "{...}" end;
     model_dump := fun m => JDict [("content", JStr (msg_content m))] |}.

Definition initial_world : World :=
  {| rng_pos := 0; llm_calls := 0; subgraph_runs := [] |}.

Definition mkcall (name : string) (args : gmap string arg) (id : string) : ToolCall :=
  {| tc_name := name; tc_args := args; tc_id := id |}.


(** ** Further vocabulary for the properties *)

Definition in_range (lo hi z : Z) : Prop := (lo <= z <= hi)%Z.

(** The world after [n] draws from the random source. *)
Definition after_draws (n : nat) (w : World) : World :=
  {| rng_pos := n + rng_pos w; llm_calls := llm_calls w;
     subgraph_runs := subgraph_runs w |}.

(** The world after one call of the chat model. *)
Definition after_model_call (w : World) : World :=
  {| rng_pos := rng_pos w; llm_calls := S (llm_calls w);
     subgraph_runs := subgraph_runs w |}.

Definition is_task_call (tc : ToolCall) : bool := String.eqb (tc_name tc) "task_tool".

Definition is_weather_call (tc : ToolCall) : bool := String.eqb (tc_name tc) "get_weather".

Definition is_str (a : arg) : bool :=
  match a with
  | ArgStr _ => true
  | ArgOther _ => false
  end.

(** A [get_weather] call whose input passes the validation of [invoke]:
    location and unit, where given, are strings. *)
Definition is_valid_weather_call (tc : ToolCall) : bool :=
  is_weather_call tc
  && is_str (default (ArgStr "unknown") (tc_args tc !! "location"))
  && is_str (default (ArgStr "celsius") (tc_args tc !! "unit")).

(** The four values [get_weather] draws when called in the world [w]:
    temperature, condition, humidity and wind speed. *)
Definition weather_values (h : Host) (w : World) : Z * string * Z * Z :=
  let r := fun i => random_source h (i + rng_pos w) in
  ((10 + Z.of_nat (r 0%nat) mod 21)%Z,
   nth (r 1%nat mod 5) conditions "sunny",
   (40 + Z.of_nat (r 2%nat) mod 41)%Z,
   (5 + Z.of_nat (r 3%nat) mod 21)%Z).

(** [graph.ainvoke(input_state)] on the main graph. *)
Definition run_graph (h : Host) (input : GraphState) : M GraphState :=
  ainvoke h (create_graph h) merge_messages input.

(** A host with an API key whose chat model answers in plain text. *)
Definition keyed_host : Host :=
  {| str_upper := upper;
     random_source := fun n => 7 * n + 3;
     getenv := fun name => if String.eqb name "OPENAI_API_KEY" then Some "sk-test" else None;
     llm_ainvoke := fun _ _ => inr (AIMessage "Done." []);
     openai_error := sample_openai_error;
     validation_error := sample_validation_error;
     recursion_limit := 25%positive;
     str_of_dict := fun d => match d with [] => "{}" | _ => "{...}" end;
     model_dump := fun m => JDict [("content", JStr (msg_content m))] |}.

(** A host with an API key whose chat model cannot be reached. *)
Definition offline_host : Host :=
  {| str_upper := upper;
     random_source := fun n => 7 * n + 3;
     getenv := fun name => if String.eqb name "OPENAI_API_KEY" then Some "sk-test" else None;
     llm_ainvoke := fun _ _ => inl (Exn "APIConnectionError" "Connection error.");
     openai_error := sample_openai_error;
     validation_error := sample_validation_error;
     recursion_limit := 25%positive;
     str_of_dict := fun d => match d with [] => "{}" | _ => "{...}" end;
     model_dump := fun m => JDict [("content", JStr (msg_content m))] |}.

(** The list [agent_node] sends to the model: [messages_with_system]. *)
Definition messages_with_system (messages_list : list BaseMessage) : list BaseMessage :=
  if negb (existsb is_system_message messages_list)
  then system_message :: messages_list
  else messages_list.

Definition recursion_error : exn := Exn "GraphRecursionError" "Recursion limit reached".

(** What a command may contribute: a user message with content, or the
    tool message of a client result. *)
Definition input_message_ok (m : BaseMessage) : Prop :=
  match m with
  | HumanMessage c => c <> ""
  | ToolMessage _ _ None None => True
  | _ => False
  end.

(** The default each branch of the tools node gives to a missing argument. *)
Definition argument_defaults : list (string * string) :=
  [("task_description", ""); ("location", "unknown"); ("unit", "celsius");
   ("query", ""); ("plot_type", "bar")].

Definition set_arg (key value : string) (tc : ToolCall) : ToolCall :=
  {| tc_name := tc_name tc; tc_args := <[key := ArgStr value]> (tc_args tc);
     tc_id := tc_id tc |}.

(** A host with an API key whose chat model first asks for the weather in
    Tokyo and then answers in plain text. *)
Definition scripted_host : Host :=
  {| str_upper := upper;
     random_source := fun n => 7 * n + 3;
     getenv := fun name => if String.eqb name "OPENAI_API_KEY" then Some "sk-test" else None;
     llm_ainvoke := fun n _ =>
       match n with
       | O => inr (AIMessage ""
                     [mkcall "get_weather" {["location" := ArgStr "Tokyo"]} "call_1"])
       | _ => inr (AIMessage "It is sunny in Tokyo." [])
       end;
     openai_error := sample_openai_error;
     validation_error := sample_validation_error;
     recursion_limit := 25%positive;
     str_of_dict := fun d => match d with [] => "{}" | _ => "{...}" end;
     model_dump := fun m => JDict [("content", JStr (msg_content m))] |}.

(** * Properties *)

(** ** The effect monad *)

Lemma bind_inr {A B} (m : M A) (k : A -> M B) w a w' :
  m w = (inr a, w') -> bind m k w = k a w'.
Proof. intros H. unfold bind. now rewrite H. Qed.

Lemma bind_inl {A B} (m : M A) (k : A -> M B) w e w' :
  m w = (inl e, w') -> bind m k w = (inl e, w').
Proof. intros H. unfold bind. now rewrite H. Qed.

Lemma try_except_inl {A} (body : M A) handler w e w' :
  body w = (inl e, w') -> try_except body handler w = handler e w'.
Proof. intros H. unfold try_except. now rewrite H. Qed.


(** A guarded call whose handler returns always returns. *)
Lemma try_except_returns {A} (body : M A) (handler : exn -> A) w :
  exists a w', try_except body (fun e => ret (handler e)) w = (inr a, w').
Proof.
  unfold try_except. destruct (body w) as [[e | a] w']; eauto.
Qed.

Lemma for_each_cons {A B} (f : A -> M B) x xs w y w1 ys w2 :
  f x w = (inr y, w1) ->
  for_each f xs w1 = (inr ys, w2) ->
  for_each f (x :: xs) w = (inr (y :: ys), w2).
Proof.
  intros Hx Hxs. simpl. rewrite (bind_inr _ _ _ _ _ Hx).
  now rewrite (bind_inr _ _ _ _ _ Hxs).
Qed.


(** ** Routing *)

Lemma should_call_tools_tools st :
  should_call_tools st = "tools" <-> carries_tool_call st.
Proof.
  unfold should_call_tools, carries_tool_call. split.
  - destruct (last (messages st)) as [m |] eqn:Hlast; [| discriminate].
    apply last_Some in Hlast as [pre Hpre].
    destruct m as [c | c | c [| tc tcs] | c i n a]; simpl; try discriminate.
    intros _. now exists pre, c, tc, tcs.
  - intros (pre & c & tc & tcs & H). rewrite H, last_snoc. reflexivity.
Qed.

Lemma should_call_tools_cases st :
  should_call_tools st = "tools" \/ should_call_tools st = "end".
Proof.
  unfold should_call_tools.
  destruct (last (messages st)) as [m |]; [| now right].
  destruct (msg_tool_calls m); [now right | now left].
Qed.

Lemma successor_agent h st :
  successor (create_graph h) "agent" st =
  if String.eqb (should_call_tools st) "tools" then Some "tools" else Some END.
Proof.
  unfold successor. simpl.
  destruct (should_call_tools_cases st) as [-> | ->]; reflexivity.
Qed.

(** C2: the entry node is [agent]; after [agent] the graph goes to [tools]
    exactly when the latest message carries at least one tool call, and
    terminates exactly when it does not; after [tools] it always returns to
    [agent]. *)
Theorem routing_function (h : Host) (st : GraphState) :
  entry_point (create_graph h) = Some "agent"
  /\ (successor (create_graph h) "agent" st = Some "tools" <-> carries_tool_call st)
  /\ (successor (create_graph h) "agent" st = Some END <-> ~ carries_tool_call st)
  /\ successor (create_graph h) "tools" st = Some "agent".
Proof.
  split; [reflexivity |]. rewrite successor_agent, <- should_call_tools_tools.
  repeat split.
  - destruct (should_call_tools_cases st) as [E | E]; rewrite E; [reflexivity | discriminate].
  - now intros ->.
  - destruct (should_call_tools_cases st) as [E | E]; rewrite E; simpl;
      [discriminate | intros _; discriminate].
  - destruct (should_call_tools_cases st) as [E | E]; rewrite E; simpl;
      [intros H; now elim H | reflexivity].
Qed.

(** ** Tool dispatch *)

Lemma append_nonempty (a b : string) : a <> "" -> a +:+ b <> "".
Proof. destruct a; [congruence | discriminate]. Qed.

(** A guarded backend call that raises is answered by the error message. *)
Lemma dispatch_backend_fault g tc call opening e w w' :
  backend_invocation g tc = Some (call, opening) ->
  call w = (inl e, w') ->
  dispatch g tc w =
  (inr (ToolMessage (opening +:+ ": " +:+ exn_str e) (tc_id tc) (Some (tc_name tc)) None), w').
Proof.
  unfold backend_invocation, dispatch. intros Hinv Hcall.
  destruct (String.eqb (tc_name tc) "get_weather") eqn:E1.
  { apply String.eqb_eq in E1. rewrite E1 in *. simpl.
    injection Hinv as <- <-.
    erewrite try_except_inl; [| erewrite bind_inl; [reflexivity | eassumption]].
    reflexivity. }
  destruct (String.eqb (tc_name tc) "search_products") eqn:E2.
  { apply String.eqb_eq in E2. rewrite E2 in *. simpl.
    injection Hinv as <- <-.
    erewrite try_except_inl; [| erewrite bind_inl; [reflexivity | eassumption]].
    reflexivity. }
  destruct (String.eqb (tc_name tc) "display_graph") eqn:E3; [| discriminate].
  apply String.eqb_eq in E3. rewrite E3 in *. simpl.
  injection Hinv as <- <-.
  erewrite try_except_inl; [| erewrite bind_inl; [reflexivity | eassumption]].
  reflexivity.
Qed.


(** A call to a backend tool never makes the loop body raise. *)
Lemma dispatch_backend_returns g tc w :
  is_Some (backend_invocation g tc) ->
  exists m w', dispatch g tc w = (inr m, w').
Proof.
  unfold backend_invocation, dispatch. intros [x Hx].
  destruct (String.eqb (tc_name tc) "get_weather") eqn:E1.
  { apply String.eqb_eq in E1. rewrite E1. simpl.
    unfold try_except, bind, ret.
    destruct (get_weather_invoke g _ _ w) as [[e | r] w']; eauto. }
  destruct (String.eqb (tc_name tc) "search_products") eqn:E2.
  { apply String.eqb_eq in E2. rewrite E2. simpl.
    unfold try_except, bind, ret.
    destruct (search_products_invoke g _ w) as [[e | r] w']; eauto. }
  destruct (String.eqb (tc_name tc) "display_graph") eqn:E3; [| discriminate].
  apply String.eqb_eq in E3. rewrite E3. simpl.
  unfold try_except, bind, ret.
  destruct (display_graph_invoke g _ w) as [[e | r] w']; eauto.
Qed.

Lemma for_each_backend_returns g tcs :
  Forall (fun tc => is_Some (backend_invocation g tc)) tcs ->
  forall w, exists ms w', for_each (dispatch g) tcs w = (inr ms, w').
Proof.
  induction 1 as [| tc tcs Htc _ IH]; intros w.
  - exists [], w. reflexivity.
  - destruct (dispatch_backend_returns g tc w Htc) as (m & w1 & Hm).
    destruct (IH w1) as (ms & w2 & Hms).
    exists (m :: ms), w2. eapply for_each_cons; eassumption.
Qed.

Lemma tool_executor_node_last g pre c tcs w :
  tool_executor_node g {| messages := pre ++ [AIMessage c tcs] |} w =
  for_each (dispatch g) tcs w.
Proof.
  unfold tool_executor_node. simpl. rewrite last_snoc. simpl.
  now destruct tcs.
Qed.

(** C3: when the function under a backend tool call (weather lookup,
    product search, chart display) raises, the loop body catches the
    exception and answers with a tool message that carries the id and the
    name of the call and whose content is the error text, which is not
    empty; the tools node returns that message instead of raising, and no
    list of backend tool calls can make the tools node raise. *)
Theorem tool_fault_containment (g : Globals) (tc : ToolCall) (call : M string)
    (opening : string) (e : exn) (w w' : World) :
  backend_invocation g tc = Some (call, opening) ->
  call w = (inl e, w') ->
  let content := opening +:+ ": " +:+ exn_str e in
  dispatch g tc w = (inr (ToolMessage content (tc_id tc) (Some (tc_name tc)) None), w')
  /\ content <> ""
  /\ (forall pre c,
        tool_executor_node g {| messages := pre ++ [AIMessage c [tc]] |} w =
        (inr [ToolMessage content (tc_id tc) (Some (tc_name tc)) None], w'))
  /\ (forall pre c tcs w0,
        Forall (fun t => is_Some (backend_invocation g t)) tcs ->
        exists ms w1,
          tool_executor_node g {| messages := pre ++ [AIMessage c tcs] |} w0 =
          (inr ms, w1)).
Proof.
  intros Hinv Hcall content.
  pose proof (dispatch_backend_fault g tc call opening e w w' Hinv Hcall) as Hd.
  repeat split.
  - exact Hd.
  - unfold content. intros H.
    destruct opening; simpl in H; discriminate.
  - intros pre c. rewrite tool_executor_node_last.
    eapply for_each_cons; [exact Hd | reflexivity].
  - intros pre c tcs w0 Hall. rewrite tool_executor_node_last.
    now apply for_each_backend_returns.
Qed.

(** The weather tool raises on an empty unit, and the node answers with the
    error text. *)
Lemma tool_fault_containment_witness :
  let tc := mkcall "get_weather" {["location" := ArgStr "Tokyo"; "unit" := ArgStr ""]} "call_1" in
  dispatch (module_globals sample_host) tc initial_world =
  (inr (ToolMessage "Error fetching weather for Tokyo: string index out of range"
          "call_1" (Some "get_weather") None),
   {| rng_pos := 4; llm_calls := 0; subgraph_runs := [] |}).
Proof.
  intros tc.
  refine (proj1 (tool_fault_containment (module_globals sample_host) tc
                   (get_weather sample_host "Tokyo" "")
                   "Error fetching weather for Tokyo"
                   (Exn "IndexError" "string index out of range")
                   initial_world
                   {| rng_pos := 4; llm_calls := 0; subgraph_runs := [] |}
                   _ _)).
  - vm_compute. reflexivity.
  - vm_compute. reflexivity.
Defined.

Lemma dispatch_shape g tc w m w' :
  dispatch g tc w = (inr m, w') -> answers_call tc m.
Proof.
  unfold dispatch, answers_call.
  destruct (String.eqb (tc_name tc) "task_tool").
  { unfold bind, ret.
    destruct (subagent_graph_ainvoke g _ w) as [[e | s] w1]; intros [= <- <-]; eauto. }
  destruct (String.eqb (tc_name tc) "get_weather").
  { unfold try_except, bind, ret.
    destruct (get_weather_invoke g _ _ w) as [[e | r] w1]; intros [= <- <-]; eauto. }
  destruct (String.eqb (tc_name tc) "search_products").
  { unfold try_except, bind, ret.
    destruct (search_products_invoke g _ w) as [[e | r] w1]; intros [= <- <-]; eauto. }
  destruct (String.eqb (tc_name tc) "display_graph").
  { unfold try_except, bind, ret.
    destruct (display_graph_invoke g _ w) as [[e | r] w1]; intros [= <- <-]; eauto. }
  unfold ret. intros [= <- <-]. eauto.
Qed.


Lemma for_each_dispatch_shape g tcs :
  forall w ms w', for_each (dispatch g) tcs w = (inr ms, w') ->
                  Forall2 answers_call tcs ms.
Proof.
  induction tcs as [| tc tcs IH]; intros w ms w'; simpl.
  - unfold ret. intros [= <- <-]. constructor.
  - unfold bind at 1.
    destruct (dispatch g tc w) as [[e | m] w1] eqn:Hm; [discriminate |].
    unfold bind at 1.
    destruct (for_each (dispatch g) tcs w1) as [[e | ms'] w2] eqn:Hms; [discriminate |].
    unfold ret. intros [= <- <-]. constructor.
    + eapply dispatch_shape; eassumption.
    + eapply IH; eassumption.
Qed.






(** ** The client-side product search *)

(** C6, as the code has it: a call to [search_products] is executed by the
    backend like any other tool and answered by one tool message carrying
    the id of the call; its content is the product table when the query is
    a string or is absent, and the error text of the failed validation when
    the query is anything else. *)
Theorem search_products_dispatch (h : Host) (tc : ToolCall) (w : World) :
  tc_name tc = "search_products" ->
  let content :=
    match default (ArgStr "") (tc_args tc !! "query") with
    | ArgStr _ => json_dumps data_table
    | ArgOther shown =>
        "Error searching products for " +:+ shown +:+ ": "
        +:+ exn_str (invalid_input h "search_products" [("query", ArgOther shown)])
    end in
  dispatch (module_globals h) tc w =
  (inr (ToolMessage content (tc_id tc) (Some "search_products") None), w).
Proof.
  intros E. unfold dispatch. rewrite E. simpl.
  destruct (default (ArgStr "") (tc_args tc !! "query")); reflexivity.
Qed.

Lemma search_products_dispatch_witness :
  dispatch (module_globals sample_host)
    (mkcall "search_products" {["query" := ArgStr "shoes"]} "call_1") initial_world =
  (inr (ToolMessage (json_dumps data_table) "call_1" (Some "search_products") None),
   initial_world).
Proof.
  exact (search_products_dispatch sample_host
           (mkcall "search_products" {["query" := ArgStr "shoes"]} "call_1")
           initial_world eq_refl).
Defined.

(** A query that is not a string: the call is still answered, with the
    error text. *)
Example search_products_null_query :
  dispatch (module_globals sample_host)
    (mkcall "search_products" {["query" := ArgOther "None"]} "call_1") initial_world =
  (inr (ToolMessage
          "Error searching products for None: 1 validation error for search_products"
          "call_1" (Some "search_products") None),
   initial_world).
Proof. reflexivity. Qed.

(** C6 as stated fails: the tools node answers a [search_products] call
    with a tool message. *)
Lemma search_products_is_answered :
  let st := {| messages :=
                 [HumanMessage "find shoes";
                  AIMessage "" [mkcall "search_products" {["query" := ArgStr "shoes"]} "call_1"]] |} in
  tool_executor_node (module_globals sample_host) st initial_world =
  (inr [ToolMessage (json_dumps data_table) "call_1" (Some "search_products") None],
   initial_world)
  /\ fst (tool_executor_node (module_globals sample_host) st initial_world) <> inr [].
Proof.
  split; [reflexivity | discriminate].
Qed.

(** ** Delegation *)

(** The sub-graph runs its single node once and merges what it returns. *)
(** A run that has reached [END] stops, whatever is left of the limit. *)
Lemma run_from_END {S U} limit (g : StateGraph S U) merge st :
  run_from limit g merge END st = ret st.
Proof. destruct limit; reflexivity. Qed.

(** The step limit of a host allows at least one step. *)
Lemma recursion_limit_pos h : exists n, Pos.to_nat (recursion_limit h) = S n.
Proof.
  destruct (Pos.to_nat (recursion_limit h)) as [| n] eqn:E; [| eauto].
  pose proof (Pos2Nat.is_pos (recursion_limit h)). lia.
Qed.

Lemma subagent_graph_run h s w :
  subagent_graph h s w =
  match subagent_node h s (with_log w s) with
  | (inr u, w') => (inr (merge_subagent s u), w')
  | (inl e, w') => (inl e, w')
  end.
Proof.
  unfold subagent_graph, log_subgraph_start, ainvoke, bind at 1. simpl.
  destruct (recursion_limit_pos h) as [n ->]. simpl.
  unfold bind at 1.
  destruct (subagent_node h s (with_log w s)) as [[e | u] w']; [reflexivity |].
  now rewrite run_from_END.
Qed.

(** Building the client: it raises when the key is not set, and otherwise
    leaves the world as it is. *)
Lemma ChatOpenAI_run h w :
  ChatOpenAI h w =
  match getenv h "OPENAI_API_KEY" with
  | None => (inl (Exn "OpenAIError" (openai_error h)), w)
  | Some _ => (inr tt, w)
  end.
Proof. unfold ChatOpenAI. destruct (getenv h "OPENAI_API_KEY"); reflexivity. Qed.

Lemma env_truthy_set h name :
  env_truthy h name = true -> exists v, getenv h name = Some v.
Proof.
  unfold env_truthy. destruct (getenv h name) as [[|] |]; try discriminate; eauto.
Qed.

Lemma subagent_node_log h s w r w' :
  subagent_node h s w = (r, w') -> subgraph_runs w' = subgraph_runs w.
Proof.
  unfold subagent_node. unfold bind at 1. rewrite ChatOpenAI_run.
  destruct (getenv h "OPENAI_API_KEY"); [| intros [= <- <-]; reflexivity].
  unfold bind, ret, chat_ainvoke.
  destruct (env_truthy h "OPENAI_API_KEY").
  - destruct (llm_ainvoke h (llm_calls w) _); intros [= <- <-]; reflexivity.
  - intros [= <- <-]. reflexivity.
Qed.

Lemma subagent_node_update h s w u w' :
  subagent_node h s w = (inr u, w') -> upd_messages u = [AIMessage (upd_result u) []].
Proof.
  unfold subagent_node. unfold bind at 1. rewrite ChatOpenAI_run.
  destruct (getenv h "OPENAI_API_KEY"); [| discriminate].
  unfold bind, ret, chat_ainvoke.
  destruct (env_truthy h "OPENAI_API_KEY").
  - destruct (llm_ainvoke h (llm_calls w) _); intros [= <- <-]; reflexivity.
  - intros [= <- <-]. reflexivity.
Qed.

(** C4, as the code has it: a [task_tool] call starts exactly one
    sub-computation, from the state holding the task description; when the
    sub-computation completes, the tool message's artifact is a dictionary
    whose single key [subgraph_state] holds the sub-computation's full final
    state (its messages, task and result), and the content is the result. *)
Theorem delegation_artifact (h : Host) (tc : ToolCall) (w w' : World)
    (final : SubagentState) :
  tc_name tc = "task_tool" ->
  subagent_graph h (delegation_input tc) w = (inr final, w') ->
  dispatch (module_globals h) tc w =
  (inr (ToolMessage (sub_result final) (tc_id tc) (Some "task_tool")
          (Some (PDict [("subgraph_state", state_obj final)]))), w')
  /\ subgraph_runs w' = subgraph_runs w ++ [state_obj (delegation_input tc)]
  /\ sub_task final = default (ArgStr "") (tc_args tc !! "task_description")
  /\ sub_messages final = [AIMessage (sub_result final) []].
Proof.
  intros E Hrun. split.
  - unfold dispatch. rewrite E. simpl.
    change (subagent_graph h _) with (subagent_graph h (delegation_input tc)).
    erewrite bind_inr by exact Hrun. reflexivity.
  - rewrite subagent_graph_run in Hrun.
    destruct (subagent_node h (delegation_input tc) (with_log w (delegation_input tc)))
      as [[e | u] w1] eqn:Hnode; [discriminate |].
    injection Hrun as <- <-.
    split; [| split].
    + now rewrite (subagent_node_log _ _ _ _ _ Hnode).
    + reflexivity.
    + simpl. now rewrite (subagent_node_update _ _ _ _ _ Hnode).
Qed.

(** A delegation on a host whose model answers [Done.]. *)
Lemma delegation_artifact_witness :
  let tc := mkcall "task_tool"
              {["task_description" := ArgStr "Complete the requested task"]} "task_001" in
  let final := {| sub_messages := [AIMessage "Done." []];
                  sub_task := ArgStr "Complete the requested task";
                  sub_result := "Done." |} in
  dispatch (module_globals keyed_host) tc initial_world =
  (inr (ToolMessage "Done." "task_001" (Some "task_tool")
          (Some (PDict [("subgraph_state", state_obj final)]))),
   after_model_call (with_log initial_world (delegation_input tc))).
Proof.
  intros tc final.
  refine (proj1 (delegation_artifact keyed_host tc initial_world
                   (after_model_call (with_log initial_world (delegation_input tc)))
                   final _ _));
    reflexivity.
Defined.

(** C4 as stated fails: the artifact is not the final state object, it is a
    dictionary that holds the final state under [subgraph_state]. *)
Lemma artifact_is_not_final_state :
  let tc := mkcall "task_tool"
              {["task_description" := ArgStr "Complete the requested task"]} "task_001" in
  let final := {| sub_messages := [AIMessage "Done." []];
                  sub_task := ArgStr "Complete the requested task";
                  sub_result := "Done." |} in
  subagent_graph keyed_host (delegation_input tc) initial_world =
  (inr final, after_model_call (with_log initial_world (delegation_input tc)))
  /\ exists m w',
       dispatch (module_globals keyed_host) tc initial_world = (inr m, w')
       /\ msg_artifact m = Some (PDict [("subgraph_state", state_obj final)])
       /\ msg_artifact m <> Some (state_obj final).
Proof.
  intros tc final. split; [reflexivity |].
  exists (ToolMessage "Done." "task_001" (Some "task_tool")
            (Some (PDict [("subgraph_state", state_obj final)]))),
         (after_model_call (with_log initial_world (delegation_input tc))).
  split; [reflexivity |]. split; [reflexivity | discriminate].
Qed.

(** ** Strings *)

Lemma str_app_cons (x : ascii) (a b : string) :
  String x a +:+ b = String x (a +:+ b).
Proof. reflexivity. Qed.

Lemma str_app_assoc (a b c : string) : (a +:+ b) +:+ c = a +:+ (b +:+ c).
Proof.
  induction a as [| x a IH]; [reflexivity |].
  rewrite !str_app_cons. now rewrite IH.
Qed.

Lemma str_app_nil_r (a : string) : a +:+ "" = a.
Proof.
  induction a as [| x a IH]; [reflexivity |].
  rewrite str_app_cons. now rewrite IH.
Qed.

Lemma str_length_app (a b : string) :
  String.length (a +:+ b) = String.length a + String.length b.
Proof.
  induction a as [| x a IH]; [reflexivity |].
  rewrite str_app_cons. simpl. now rewrite IH.
Qed.

(** ** The decoder reads back what the encoder wrote *)

Lemma read_string_escape_char c rest :
  read_string (json_escape_char c +:+ rest) = prepend c (read_string rest).
Proof.
  destruct c as [[|] [|] [|] [|] [|] [|] [|] [|]]; reflexivity.
Qed.

Lemma read_string_escape s rest :
  read_string (json_escape s +:+ DQ +:+ rest) = Some (s, rest).
Proof.
  induction s as [| c s IH]; [reflexivity |].
  change (json_escape (String c s)) with (json_escape_char c +:+ json_escape s).
  rewrite str_app_assoc, read_string_escape_char, IH.
  reflexivity.
Qed.

Lemma read_string_quote s rest :
  exists body, json_quote s +:+ rest = String (ascii_of_nat 34) body
               /\ read_string body = Some (s, rest).
Proof.
  exists (json_escape s +:+ DQ +:+ rest). split.
  - unfold json_quote. now rewrite !str_app_assoc.
  - apply read_string_escape.
Qed.

Lemma uint_number_chars d :
  Forall (fun c => is_number_char c = true)
         (list_ascii_of_string (NilEmpty.string_of_uint d)).
Proof. induction d; simpl; constructor; auto. Qed.

Lemma str_of_int_number_chars z :
  Forall (fun c => is_number_char c = true) (list_ascii_of_string (str_of_int z)).
Proof.
  unfold str_of_int. destruct (Z.to_int z) as [d | d]; simpl.
  - destruct d; try apply uint_number_chars. repeat constructor.
  - constructor; [reflexivity |].
    destruct d; try apply uint_number_chars. repeat constructor.
Qed.

Lemma to_int_proper z : Z.to_int z <> Decimal.Pos Decimal.Nil
                        /\ Z.to_int z <> Decimal.Neg Decimal.Nil.
Proof.
  destruct z as [| p | p]; simpl; split; try discriminate;
    intros [= H]; now apply DecimalPos.Unsigned.to_uint_nonnil in H.
Qed.

Lemma str_of_int_first z :
  exists c s, str_of_int z = String c s /\ is_number_char c = true.
Proof.
  pose proof (str_of_int_number_chars z) as Hall.
  destruct (str_of_int z) as [| c s] eqn:E.
  - exfalso. unfold str_of_int in E.
    destruct (to_int_proper z) as [Hp Hn].
    destruct (Z.to_int z) as [d | d]; simpl in E; [| discriminate].
    destruct d; simpl in E; discriminate.
  - exists c, s. split; [reflexivity |]. now inversion Hall.
Qed.

Lemma span_number_app s rest :
  Forall (fun c => is_number_char c = true) (list_ascii_of_string s) ->
  ends_number rest ->
  span_number (s +:+ rest) = (s, rest).
Proof.
  intros Hs Hrest. induction s as [| c s IH].
  - destruct rest as [| c r]; [reflexivity |].
    simpl in *. now rewrite Hrest.
  - rewrite str_app_cons. simpl in *. inversion Hs as [| ? ? Hc Hs']; subst.
    rewrite Hc, (IH Hs'). reflexivity.
Qed.

Lemma read_int_str_of_int z rest :
  ends_number rest -> read_int (str_of_int z +:+ rest) = Some (z, rest).
Proof.
  intros Hrest. unfold read_int.
  rewrite (span_number_app _ _ (str_of_int_number_chars z) Hrest).
  unfold str_of_int at 1.
  destruct (to_int_proper z) as [Hp Hn].
  rewrite (NilZero.isi _ Hp Hn), DecimalZ.of_to.
  now rewrite String.eqb_refl.
Qed.

Lemma read_value_dumps v rest :
  is_flat v = true -> ends_number rest ->
  read_value (json_dumps v +:+ rest) = Some (v, rest).
Proof.
  intros Hflat Hrest. destruct v as [| b | z | s | l | kvs]; try discriminate.
  - simpl json_dumps.
    destruct (str_of_int_first z) as (c & s & E & Hc).
    unfold read_value. rewrite E, str_app_cons, <- str_app_cons, <- E.
    assert ((nat_of_ascii c =? 34) = false) as ->.
    { unfold is_number_char in Hc.
      destruct (nat_of_ascii c =? 34) eqn:E34; [| reflexivity].
      apply Nat.eqb_eq in E34. rewrite E34 in Hc. discriminate. }
    now rewrite read_int_str_of_int.
  - simpl json_dumps.
    destruct (read_string_quote s rest) as (body & -> & Hbody).
    unfold read_value. simpl. now rewrite Hbody.
Qed.

(** One member of an object, as [json.dumps] writes it. *)
Lemma read_members_member k v rest fuel :
  is_flat v = true -> ends_number rest ->
  read_members (S fuel) (json_quote k +:+ ": " +:+ json_dumps v +:+ rest) =
  match rest with
  | String "}" s3 => Some ([(k, v)], s3)
  | String "," (String " " s3) =>
      match read_members fuel s3 with
      | Some (kvs, s4) => Some ((k, v) :: kvs, s4)
      | None => None
      end
  | _ => None
  end.
Proof.
  intros Hflat Hrest.
  change (": " +:+ json_dumps v +:+ rest)
    with (String ":" (String " " (json_dumps v +:+ rest))).
  destruct (read_string_quote k (String ":" (String " " (json_dumps v +:+ rest))))
    as (body & -> & Hbody).
  simpl. rewrite Hbody, (read_value_dumps v rest Hflat Hrest).
  reflexivity.
Qed.

Lemma read_members_dumps kvs : forall k v fuel rest,
  Forall (fun kv => is_flat kv.2 = true) ((k, v) :: kvs) ->
  length kvs < fuel ->
  read_members fuel
    (str_join ", "
       (List.map (fun kv => let '(k, v) := kv in
                            json_quote k +:+ ": " +:+ json_dumps v)
                 ((k, v) :: kvs))
     +:+ String "}" rest) =
  Some ((k, v) :: kvs, rest).
Proof.
  induction kvs as [| [k' v'] kvs IH]; intros k v fuel rest Hflat Hfuel;
    (destruct fuel as [| fuel]; [simpl in Hfuel; lia |]);
    inversion Hflat as [| ? ? Hv Hrest]; subst; simpl in Hv.
  - simpl List.map. unfold str_join. simpl String.concat.
    rewrite !str_app_assoc.
    now rewrite read_members_member.
  - change (str_join ", " (List.map _ ((k, v) :: (k', v') :: kvs)))
      with ((json_quote k +:+ ": " +:+ json_dumps v) +:+ ", " +:+
            str_join ", "
              (List.map (fun kv => let '(k, v) := kv in
                                   json_quote k +:+ ": " +:+ json_dumps v)
                        ((k', v') :: kvs))).
    rewrite !str_app_assoc.
    change (", " +:+ ?x) with (String "," (String " " x)).
    rewrite read_members_member by (assumption || reflexivity).
    rewrite IH; [reflexivity | assumption | simpl in Hfuel; lia].
Qed.

Lemma json_quote_first s :
  exists body, json_quote s = String (ascii_of_nat 34) body.
Proof. eexists. reflexivity. Qed.

(** The text of an object is at least as long as the object has members. *)
Lemma members_length kvs :
  length kvs <=
  String.length
    (str_join ", "
       (List.map (fun kv : string * json =>
                    let '(k, v) := kv in json_quote k +:+ ": " +:+ json_dumps v)
                 kvs)).
Proof.
  induction kvs as [| [k v] kvs IH]; [simpl; lia |].
  destruct kvs as [| kv kvs].
  - simpl List.map. unfold str_join. simpl String.concat.
    destruct (json_quote_first k) as [body ->]. rewrite str_app_cons. simpl. lia.
  - change (str_join ", " (List.map ?f ((k, v) :: kv :: kvs)))
      with ((let '(k, v) := (k, v) in json_quote k +:+ ": " +:+ json_dumps v)
            +:+ ", " +:+ str_join ", " (List.map f (kv :: kvs))).
    rewrite !str_length_app. simpl in *. lia.
Qed.

Lemma members_first k v kvs :
  exists body,
    str_join ", "
      (List.map (fun kv : string * json =>
                   let '(k, v) := kv in json_quote k +:+ ": " +:+ json_dumps v)
                ((k, v) :: kvs))
    = String (ascii_of_nat 34) body.
Proof.
  destruct (json_quote_first k) as [b Hb].
  destruct kvs as [| kv kvs]; simpl List.map; unfold str_join; simpl String.concat;
    rewrite Hb, !str_app_cons; eauto.
Qed.

(** The decoder inverts the encoder on objects whose values are strings and
    integers. *)
Lemma json_loads_flat_dumps kvs :
  Forall (fun kv => is_flat kv.2 = true) kvs ->
  json_loads_flat (json_dumps (JDict kvs)) = Some kvs.
Proof.
  intros Hflat. destruct kvs as [| [k v] kvs]; [reflexivity |].
  change (json_dumps (JDict ((k, v) :: kvs)))
    with ("{" +:+ str_join ", "
                    (List.map (fun kv : string * json =>
                                 let '(k, v) := kv in
                                 json_quote k +:+ ": " +:+ json_dumps v)
                              ((k, v) :: kvs)) +:+ "}").
  pose proof (members_length ((k, v) :: kvs)) as Hlen.
  destruct (members_first k v kvs) as [body Hbody].
  pose proof (read_members_dumps kvs k v) as Hread.
  remember (str_join ", " (List.map _ ((k, v) :: kvs))) as text eqn:Htext.
  change ("{" +:+ ?x) with (String "{" x).
  unfold json_loads_flat.
  assert (text +:+ "}" = String (ascii_of_nat 34) (body +:+ "}")) as Hq
    by (now rewrite Hbody, str_app_cons).
  rewrite Hq. change (ascii_of_nat 34) with "034"%char. cbv iota.
  change "034"%char with (ascii_of_nat 34). rewrite <- Hq.
  rewrite (Hread _ "" Hflat); [reflexivity |].
  simpl String.length. rewrite str_length_app. simpl in *. lia.
Qed.

(** ** The tools *)

(** [get_weather] makes four draws and then either raises on an empty unit
    or returns the encoded dictionary. *)
Lemma get_weather_run h location unit w :
  let r := fun i => random_source h (i + rng_pos w) in
  let w' := {| rng_pos := 4 + rng_pos w; llm_calls := llm_calls w;
               subgraph_runs := subgraph_runs w |} in
  get_weather h location unit w =
  match str_index0 unit with
  | inl e => (inl e, w')
  | inr u0 =>
      (inr (json_dumps
              (weather_data location unit (nth (r 1 mod 5) conditions "sunny")
                 (10 + Z.of_nat (r 0) mod 21) (40 + Z.of_nat (r 2) mod 41)
                 (5 + Z.of_nat (r 3) mod 21) (str_upper h u0))), w')
  end.
Proof.
  intros r w'. unfold get_weather, randint, choice, next_random, bind, ret, lift.
  simpl. destruct (str_index0 unit); reflexivity.
Qed.

Lemma search_products_run q w : search_products q w = (inr (json_dumps data_table), w).
Proof. reflexivity. Qed.

Lemma display_graph_pure p w1 w2 :
  fst (display_graph p w1) = fst (display_graph p w2)
  /\ snd (display_graph p w1) = w1.
Proof.
  unfold display_graph.
  destruct (String.eqb p "bar"); [split; reflexivity |].
  destruct (String.eqb p "line"); [split; reflexivity |].
  destruct (String.eqb p "pie"); split; reflexivity.
Qed.

Lemma weather_data_fields location unit condition temp humidity windSpeed initial :
  let s := json_dumps (weather_data location unit condition temp humidity
                                    windSpeed initial) in
  json_field "location" s = Some (JStr location)
  /\ json_field "unit" s = Some (JStr unit).
Proof.
  intros s. unfold s, json_field, weather_data.
  rewrite json_loads_flat_dumps by (repeat constructor).
  split; reflexivity.
Qed.

(** The encoded dictionary determines the four values drawn for it. *)
Lemma weather_data_values location unit initial c1 t1 h1 s1 c2 t2 h2 s2 :
  json_dumps (weather_data location unit c1 t1 h1 s1 initial)
  = json_dumps (weather_data location unit c2 t2 h2 s2 initial) ->
  (t1, c1, h1, s1) = (t2, c2, h2, s2).
Proof.
  intros H. apply (f_equal json_loads_flat) in H. unfold weather_data in H.
  rewrite !json_loads_flat_dumps in H by (repeat constructor).
  congruence.
Qed.

(** [get_weather] in terms of the values it draws. *)
Lemma get_weather_values h location unit w :
  get_weather h location unit w =
  match str_index0 unit with
  | inl e => (inl e, after_draws 4 w)
  | inr u0 =>
      let '(temp, condition, humidity, windSpeed) := weather_values h w in
      (inr (json_dumps (weather_data location unit condition temp humidity windSpeed
                                     (str_upper h u0))),
       after_draws 4 w)
  end.
Proof.
  rewrite get_weather_run. unfold weather_values, after_draws.
  destruct (str_index0 unit); reflexivity.
Qed.

(** C7, as the code has it: product search and chart display are
    functions of their argument alone, and leave the world as it is; the
    weather lookup is not: every call takes four draws from the random
    module, and two calls with the same location and the same unit that
    return a result return the same one exactly when the four values drawn
    (temperature, condition, humidity, wind speed) are the same. *)
Theorem tools_determinism (h : Host) :
  (forall q w1 w2, fst (search_products q w1) = fst (search_products q w2)
                   /\ snd (search_products q w1) = w1)
  /\ (forall p w1 w2, fst (display_graph p w1) = fst (display_graph p w2)
                      /\ snd (display_graph p w1) = w1)
  /\ (forall location unit w1 w2,
        snd (get_weather h location unit w1) = after_draws 4 w1
        /\ (weather_values h w1 = weather_values h w2 ->
            fst (get_weather h location unit w1) = fst (get_weather h location unit w2))
        /\ (forall result,
              fst (get_weather h location unit w1) = inr result ->
              fst (get_weather h location unit w2) = inr result ->
              weather_values h w1 = weather_values h w2)).
Proof.
  split; [| split].
  - intros q w1 w2. now rewrite !search_products_run.
  - apply display_graph_pure.
  - intros location unit w1 w2. rewrite !get_weather_values.
    destruct (weather_values h w1) as [[[t1 c1] h1] s1].
    destruct (weather_values h w2) as [[[t2 c2] h2] s2].
    destruct (str_index0 unit) as [e | u0] eqn:Hu.
    + split; [reflexivity |]. split; [reflexivity | discriminate].
    + split; [reflexivity |]. split.
      * intros [= -> -> -> ->]. reflexivity.
      * intros result H1 H2. cbn [fst] in H1, H2. rewrite <- H2 in H1.
        assert (forall a b : string, @inr exn string a = inr b -> a = b) as Hinj
          by (intros a b [= ->]; reflexivity).
        apply Hinj in H1. now apply weather_data_values in H1.
Qed.

(** C7 as stated fails: two invocations of the weather lookup, one after
    the other, with the same arguments. *)
Lemma get_weather_not_deterministic :
  let first := get_weather sample_host "Tokyo" "celsius" initial_world in
  let second := get_weather sample_host "Tokyo" "celsius" (snd first) in
  json_field "temperature" (match fst first with inr s => s | inl _ => "" end)
    = Some (JInt 13)
  /\ json_field "temperature" (match fst second with inr s => s | inl _ => "" end)
    = Some (JInt 20)
  /\ fst first <> fst second.
Proof.
  vm_compute. repeat split. discriminate.
Qed.

(** Different draws can give the same values, and then the same result:
    the first call sees the draws 3, 10, 17, 24 and the other one draws
    that differ from them by multiples of 4305. *)
Example get_weather_same_values :
  let h := {| str_upper := upper;
              random_source := fun n => if Nat.ltb n 4 then 7 * n + 3
                                        else 7 * (n - 4) + 3 + 4305;
              getenv := getenv sample_host;
              llm_ainvoke := llm_ainvoke sample_host;
              openai_error := sample_openai_error;
              validation_error := sample_validation_error;
              recursion_limit := 25;
              str_of_dict := str_of_dict sample_host;
              model_dump := model_dump sample_host |} in
  let first := get_weather h "Tokyo" "celsius" initial_world in
  let second := get_weather h "Tokyo" "celsius" (snd first) in
  random_source h 0 <> random_source h 4
  /\ weather_values h initial_world = weather_values h (snd first)
  /\ fst first = fst second.
Proof.
  vm_compute. repeat split. discriminate.
Qed.

(** What the invocation of the weather tool gives: the validation error
    when location or unit is not a string, and the result of the function
    otherwise. *)
Lemma get_weather_tool_run h location unit w :
  get_weather_tool h location unit w =
  match location, unit with
  | ArgStr l, ArgStr u => get_weather h l u w
  | _, _ =>
      (inl (invalid_input h "get_weather" [("location", location); ("unit", unit)]), w)
  end.
Proof. destruct location, unit; reflexivity. Qed.





(** ** Inbound commands *)

Lemma process_commands_contributions h cmds : forall acc out,
  process_commands h cmds acc = inr out ->
  exists contributions,
    Forall2 (fun c ms => command_messages h c = inr ms) cmds contributions
    /\ out = acc ++ concat contributions.
Proof.
  induction cmds as [| c cmds IH]; intros acc out; simpl.
  - intros [= <-]. exists []. split; [constructor | now rewrite app_nil_r].
  - destruct (command_messages h c) as [e | ms] eqn:Hc; [discriminate |].
    intros Hrest. destruct (IH _ _ Hrest) as (cs & Hcs & ->).
    exists (ms :: cs). split; [now constructor |].
    simpl. now rewrite app_assoc.
Qed.

Lemma run_callback_prepare_input h request st input :
  run_callback_prepare h request = inr (st, input) ->
  process_commands h (commands request) [] = inr (messages input)
  /\ append_input_messages h (init_controller_state (state request)) (messages input)
     = inr st.
Proof.
  unfold run_callback_prepare.
  destruct (process_commands h (commands request) []) as [e | ms]; [discriminate |].
  destruct (append_input_messages h _ ms) as [e | st'] eqn:Happ; [discriminate |].
  intros [= <- <-]. simpl. now split.
Qed.

(** C5, as the code has it: an [add-message] command with at least one
    non-empty text part contributes exactly one user message, whose content
    is the text parts joined by single spaces, and contributes nothing
    without such a part; an [add-tool-result] command contributes exactly
    one tool message, whose [tool_call_id] is the client's [toolCallId];
    the input handed to the graph is the contributions of the commands, in
    the order of the commands. *)
Theorem command_contributions (h : Host) :
  (forall type message t ts,
      type = "add-message" -> text_parts message = t :: ts ->
      command_messages h (AddMessageCommand type message) =
      inr [HumanMessage (str_join " " (t :: ts))])
  /\ (forall type message,
      type = "add-message" -> text_parts message = [] ->
      command_messages h (AddMessageCommand type message) = inr [])
  /\ (forall type toolCallId result,
      type = "add-tool-result" ->
      command_messages h (AddToolResultCommand type toolCallId result) =
      inr [ToolMessage (str_of_dict h result) toolCallId None None])
  /\ (forall request st input,
      run_callback_prepare h request = inr (st, input) ->
      exists contributions,
        Forall2 (fun c ms => command_messages h c = inr ms)
                (commands request) contributions
        /\ messages input = concat contributions).
Proof.
  repeat split.
  - intros type message t ts -> Ht. unfold command_messages. simpl. now rewrite Ht.
  - intros type message -> Ht. unfold command_messages. simpl. now rewrite Ht.
  - intros type toolCallId result ->. reflexivity.
  - intros request st input Hrun.
    apply run_callback_prepare_input in Hrun as [Hcmds _].
    apply process_commands_contributions in Hcmds as (cs & Hcs & ->). eauto.
Qed.

(** C5 as stated fails twice: a command without a text part contributes no
    message, and the text parts are joined with a space between them. *)
Lemma add_message_contribution :
  let image := {| part_type := "image"; part_text := None;
                  part_image := Some "https://example.org/cat.png" |} in
  let text := fun s => {| part_type := "text"; part_text := Some s;
                          part_image := None |} in
  command_messages sample_host
    (AddMessageCommand "add-message" {| um_role := "user"; um_parts := [image] |})
  = inr []
  /\ command_messages sample_host
       (AddMessageCommand "add-message"
          {| um_role := "user"; um_parts := [text "Hello,"; text "world"] |})
     = inr [HumanMessage "Hello, world"]
  /\ "Hello, world" <> "Hello," +:+ "world".
Proof.
  repeat split. discriminate.
Qed.

(** ** Seeding the run state *)

Lemma append_input_messages_lookup h msgs : forall st st' l,
  st !! "messages" = Some (JList l) ->
  append_input_messages h st msgs = inr st' ->
  st' !! "messages" = Some (JList (l ++ List.map (model_dump h) msgs))
  /\ forall k, k <> "messages" -> st' !! k = st !! k.
Proof.
  induction msgs as [| m msgs IH]; intros st st' l Hl; simpl.
  - intros [= <-]. rewrite app_nil_r. now split.
  - unfold append_state_message. rewrite Hl.
    intros Hrest.
    destruct (IH _ _ (l ++ [model_dump h m]) (lookup_insert_eq _ _ _) Hrest)
      as [Hm Hk].
    split.
    + now rewrite Hm, <- app_assoc.
    + intros k Hne. rewrite (Hk k Hne). now apply lookup_insert_ne.
Qed.

(** C9, as the code has it: the run state is seeded from the inbound
    state. An inbound state that has messages is taken as it is; one that
    has none keeps all its keys and gets an empty message list; without an
    inbound state the run starts from the state that holds an empty message
    list and nothing else. When the graph is started the seeded messages
    are still there, followed by the messages of the commands. *)
Theorem run_state_seeding (h : Host) (request : ChatRequest) :
  let seeded := init_controller_state (state request) in
  (forall d v, state request = Some d -> d !! "messages" = Some v -> seeded = d)
  /\ (forall d, state request = Some d -> d !! "messages" = None ->
        seeded !! "messages" = Some (JList [])
        /\ forall k, k <> "messages" -> seeded !! k = d !! k)
  /\ (state request = None -> seeded = {["messages" := JList []]})
  /\ (forall st input l,
        run_callback_prepare h request = inr (st, input) ->
        seeded !! "messages" = Some (JList l) ->
        st !! "messages"
        = Some (JList (l ++ List.map (model_dump h) (messages input)))
        /\ forall k, k <> "messages" -> st !! k = seeded !! k).
Proof.
  intros seeded. unfold seeded, init_controller_state.
  split; [| split; [| split]].
  - intros d v -> Hv. now rewrite Hv.
  - intros d -> Hnone. rewrite Hnone. split; [apply lookup_insert_eq |].
    intros k Hk. now apply lookup_insert_ne.
  - intros ->. rewrite lookup_empty. now rewrite insert_empty.
  - intros st input l Hrun Hl.
    apply run_callback_prepare_input in Hrun as [_ Happ].
    exact (append_input_messages_lookup h _ _ _ _ Hl Happ).
Qed.

(** C9 as stated fails: an inbound state without messages does not give
    the empty state with an empty message list; its other keys are kept. *)
Lemma seeding_keeps_other_keys :
  let inbound : gmap string json := {["thread" := JStr "t-1"]} in
  let seeded := init_controller_state (Some inbound) in
  inbound !! "messages" = None
  /\ seeded !! "thread" = Some (JStr "t-1")
  /\ seeded !! "messages" = Some (JList [])
  /\ seeded <> {["messages" := JList []]}.
Proof.
  intros inbound seeded.
  assert (seeded !! "thread" = Some (JStr "t-1")) as Ht by (vm_compute; reflexivity).
  split; [vm_compute; reflexivity |]. split; [exact Ht |].
  split; [vm_compute; reflexivity |].
  intros E. rewrite E in Ht. vm_compute in Ht. discriminate.
Qed.

(** ** The event adapter: events of a sub-computation stay in its container *)

Module AdapterFacts.
Import Adapter.

Lemma skeleton_set_artifact c m : skeleton (set_artifact c m) = skeleton m.
Proof. reflexivity. Qed.











Section Policy.
Variable parse_arguments : string -> option json.
Variable error_arguments : json.














End Policy.
End AdapterFacts.

(** ** The adapter on a run with two sibling delegations *)


(** The same event, computed: the new message is in the artifact of the
    tool message of [A], and the top-level list still has three messages. *)
Example event_of_A_applied :
  let s' := Adapter.step (fun _ => None) JNull Adapter.two_delegations
              (Adapter.Emitted Adapter.event_of_A) in
  Adapter.messages s' =
  [Adapter.assistant_message_AB;
   Adapter.set_artifact [Adapter.stub_message Adapter.assistant]
                        Adapter.tool_message_A;
   Adapter.tool_message_B].
Proof. vm_compute. reflexivity. Qed.

(** ** The adapter on a tool-call id used in two turns *)

(** While the second delegation has no tool message yet, its events are
    parked: the tool message of the first turn, which carries the same id,
    is not touched. *)
Example second_turn_event_parked :
  let s' := Adapter.step (fun _ => None) JNull Adapter.second_turn
              (Adapter.Emitted Adapter.event_of_second_turn) in
  Adapter.messages s' = Adapter.messages Adapter.second_turn
  /\ Adapter.pending s' !! "run-2" = Some [Adapter.stub_message Adapter.assistant]
  /\ Adapter.finish s' = Adapter.Failed Adapter.CorrelationFault.
Proof.
  split; [reflexivity |]. split; [vm_compute; reflexivity |].
  unfold Adapter.finish. destruct (decide _) as [E | _]; [| reflexivity].
  apply (f_equal (fun p => p !! "run-2")) in E. vm_compute in E. discriminate.
Qed.

(** Once the tool message of the second turn exists, the events go to its
    artifact, and the one of the first turn still is what it was. *)
Example second_turn_event_applied :
  let s' := Adapter.step (fun _ => None) JNull Adapter.second_turn_answered
              (Adapter.Emitted Adapter.event_of_second_turn) in
  Adapter.messages s' =
  [Adapter.assistant_message_task; Adapter.tool_message_first_turn;
   Adapter.assistant_message_task;
   Adapter.set_artifact [Adapter.stub_message Adapter.assistant]
                        Adapter.tool_message_second_turn]
  /\ Adapter.finish s' = Adapter.Completed.
Proof.
  split; [vm_compute; reflexivity |].
  unfold Adapter.finish. destruct (decide _) as [_ | N]; [reflexivity |].
  elim N. vm_compute. reflexivity.
Qed.

(** * Further properties of the code *)

(** ** The weather lookup *)

(** X1: with a unit that is not empty, [get_weather] returns a JSON object
    with the seven fields of [weather_data], in order: the location and the
    unit are the arguments, the temperature is between 10 and 30, the
    humidity between 40 and 80, the wind speed between 5 and 25, the
    condition is one of the five of [conditions], and the description
    repeats the same location, condition and temperature. *)
Theorem get_weather_result (h : Host) (location unit : string) (w : World) :
  unit <> "" ->
  exists s temp condition humidity windSpeed u0,
    fst (get_weather h location unit w) = inr s
    /\ json_loads_flat s =
       Some [("location", JStr location); ("temperature", JInt temp);
             ("unit", JStr unit); ("condition", JStr condition);
             ("humidity", JInt humidity); ("windSpeed", JInt windSpeed);
             ("description",
              JStr ("The weather in " +:+ location +:+ " is " +:+ condition
                    +:+ " with a temperature of " +:+ str_of_int temp
                    +:+ "¬∞" +:+ str_upper h u0 +:+ "."))]
    /\ in_range 10 30 temp /\ in_range 40 80 humidity /\ in_range 5 25 windSpeed
    /\ In condition conditions
    /\ str_index0 unit = inr u0.
Proof.
  intros Hunit. rewrite get_weather_run.
  destruct unit as [| c unit']; [now elim Hunit |].
  simpl str_index0. cbv beta iota zeta.
  do 6 eexists. split; [reflexivity |]. split.
  - unfold weather_data. apply json_loads_flat_dumps. repeat constructor.
  - unfold in_range.
    repeat split;
      try (match goal with
           | |- context [(?a mod ?b)%Z] =>
               pose proof (Z.mod_pos_bound a b ltac:(lia)); lia
           end).
    apply nth_In. simpl length. apply Nat.mod_upper_bound. discriminate.
Qed.

Lemma get_weather_result_witness :
  exists s temp condition humidity windSpeed u0,
    fst (get_weather sample_host "Oslo" "celsius" initial_world) = inr s
    /\ json_loads_flat s =
       Some [("location", JStr "Oslo"); ("temperature", JInt temp);
             ("unit", JStr "celsius"); ("condition", JStr condition);
             ("humidity", JInt humidity); ("windSpeed", JInt windSpeed);
             ("description",
              JStr ("The weather in " +:+ "Oslo" +:+ " is " +:+ condition
                    +:+ " with a temperature of " +:+ str_of_int temp
                    +:+ "¬∞" +:+ str_upper sample_host u0 +:+ "."))]
    /\ in_range 10 30 temp /\ in_range 40 80 humidity /\ in_range 5 25 windSpeed
    /\ In condition conditions
    /\ str_index0 "celsius" = inr u0.
Proof.
  apply (get_weather_result sample_host "Oslo" "celsius" initial_world).
  discriminate.
Defined.

(** X2: [get_weather] makes exactly four draws whether it returns or
    raises, and touches nothing else of the world; it raises, with
    [IndexError], exactly when the unit is the empty string. *)
Theorem get_weather_effects (h : Host) (location unit : string) (w : World) :
  snd (get_weather h location unit w) = after_draws 4 w
  /\ (unit = "" <->
      fst (get_weather h location unit w)
      = inl (Exn "IndexError" "string index out of range"))
  /\ (unit <> "" <-> exists s, fst (get_weather h location unit w) = inr s).
Proof.
  rewrite get_weather_run. destruct unit as [| c unit']; simpl.
  - split; [reflexivity |]. split; [tauto |]. split.
    + intros H. now elim H.
    + intros [s Hs]. discriminate.
  - split; [reflexivity |]. split; [split; discriminate |]. split.
    + eauto.
    + discriminate.
Qed.

(** ** The chart data *)

(** X3: [display_graph] never raises and leaves the world as it is; for a
    plot type other than [bar], [line] and [pie] it returns a JSON object
    whose only field, ["error"], names the plot type that was asked for. *)
Theorem display_graph_unsupported (plot_type : string) (w : World) :
  plot_type <> "bar" -> plot_type <> "line" -> plot_type <> "pie" ->
  (exists s, display_graph plot_type w = (inr s, w)
             /\ json_loads_flat s
                = Some [("error", JStr ("Unsupported plot type: " +:+ plot_type))])
  /\ (forall p w0, exists s, display_graph p w0 = (inr s, w0)).
Proof.
  intros Hbar Hline Hpie. split.
  - unfold display_graph.
    destruct (String.eqb_spec plot_type "bar"); [contradiction |].
    destruct (String.eqb_spec plot_type "line"); [contradiction |].
    destruct (String.eqb_spec plot_type "pie"); [contradiction |].
    eexists. split; [reflexivity |].
    apply json_loads_flat_dumps. repeat constructor.
  - intros p w0. unfold display_graph.
    destruct (String.eqb p "bar"); [eexists; reflexivity |].
    destruct (String.eqb p "line"); [eexists; reflexivity |].
    destruct (String.eqb p "pie"); eexists; reflexivity.
Qed.

Lemma display_graph_unsupported_witness :
  exists s, display_graph "scatter" initial_world = (inr s, initial_world)
            /\ json_loads_flat s
               = Some [("error", JStr ("Unsupported plot type: " +:+ "scatter"))].
Proof.
  refine (proj1 (display_graph_unsupported "scatter" initial_world _ _ _));
    discriminate.
Defined.

(** ** The tools node *)

(** X4: a [get_weather] call that passes neither a location nor a unit is
    looked up for the location [unknown] in [celsius]: the tool message is
    a JSON object with these two fields, not an error text. *)
Theorem weather_defaults (h : Host) (tc : ToolCall) (w : World) :
  tc_name tc = "get_weather" ->
  tc_args tc !! "location" = None ->
  tc_args tc !! "unit" = None ->
  exists content,
    dispatch (module_globals h) tc w =
    (inr (ToolMessage content (tc_id tc) (Some "get_weather") None), after_draws 4 w)
    /\ json_field "location" content = Some (JStr "unknown")
    /\ json_field "unit" content = Some (JStr "celsius").
Proof.
  intros E HL HU. unfold dispatch. rewrite E, HL, HU. simpl.
  unfold try_except, bind at 1. rewrite get_weather_run.
  simpl str_index0. cbv beta iota. unfold ret.
  eexists. split; [reflexivity |]. apply weather_data_fields.
Qed.

Lemma weather_defaults_witness :
  exists content,
    dispatch (module_globals sample_host) (mkcall "get_weather" ∅ "call_7") initial_world =
    (inr (ToolMessage content "call_7" (Some "get_weather") None),
     after_draws 4 initial_world)
    /\ json_field "location" content = Some (JStr "unknown")
    /\ json_field "unit" content = Some (JStr "celsius").
Proof.
  apply (weather_defaults sample_host (mkcall "get_weather" ∅ "call_7") initial_world);
    reflexivity.
Defined.

Lemma not_carries_end st : ~ carries_tool_call st -> should_call_tools st = "end".
Proof.
  intros H. destruct (should_call_tools_cases st) as [E | E]; [| assumption].
  now apply should_call_tools_tools in E.
Qed.

(** X5: on a state whose latest message carries no tool call (no message
    at all, a message that is not from the assistant, or an assistant
    message with an empty list) the tools node returns no message, starts
    nothing and draws nothing; tool calls of earlier messages are not run
    again. *)
Theorem tools_node_idle (g : Globals) (st : GraphState) (w : World) :
  ~ carries_tool_call st ->
  tool_executor_node g st w = (inr [], w).
Proof.
  intros H. apply not_carries_end in H. revert H.
  unfold should_call_tools, tool_executor_node.
  destruct (last (messages st)) as [m |]; [| reflexivity].
  destruct (msg_tool_calls m); [reflexivity | discriminate].
Qed.

Lemma tools_node_idle_witness :
  tool_executor_node (module_globals sample_host)
    {| messages := [AIMessage "" [mkcall "get_weather" ∅ "call_1"];
                    ToolMessage "{}" "call_1" (Some "get_weather") None;
                    AIMessage "Here you are." []] |}
    initial_world = (inr [], initial_world).
Proof.
  apply tools_node_idle.
  intros (pre & c & tc & tcs & H). simpl in H.
  apply (f_equal last) in H. rewrite last_snoc in H. simpl in H. discriminate.
Defined.

(** X8: a tool message carries an artifact exactly when it answers a
    delegation: the messages of the backend tools and of unknown tools have
    none. *)
Theorem artifact_only_for_delegation (g : Globals) (tc : ToolCall) (w w' : World)
    (m : BaseMessage) :
  dispatch g tc w = (inr m, w') ->
  (is_Some (msg_artifact m) <-> tc_name tc = "task_tool").
Proof.
  unfold dispatch.
  destruct (String.eqb_spec (tc_name tc) "task_tool") as [E | E].
  { unfold bind, ret.
    destruct (subagent_graph_ainvoke g _ w) as [[e | s] w1]; intros [= <- <-].
    simpl. split; [intros _; assumption | intros _; eauto]. }
  assert (forall a : option pyobj, a = None -> (is_Some a <-> tc_name tc = "task_tool"))
    as Hnone.
  { intros a ->. split; [intros [x Hx]; discriminate | contradiction]. }
  destruct (String.eqb (tc_name tc) "get_weather").
  { unfold try_except, bind, ret.
    destruct (get_weather_invoke g _ _ w) as [[e | r] w1]; intros [= <- <-];
      now apply Hnone. }
  destruct (String.eqb (tc_name tc) "search_products").
  { unfold try_except, bind, ret.
    destruct (search_products_invoke g _ w) as [[e | r] w1]; intros [= <- <-];
      now apply Hnone. }
  destruct (String.eqb (tc_name tc) "display_graph").
  { unfold try_except, bind, ret.
    destruct (display_graph_invoke g _ w) as [[e | r] w1]; intros [= <- <-];
      now apply Hnone. }
  unfold ret. intros [= <- <-]. now apply Hnone.
Qed.

Lemma artifact_only_for_delegation_witness :
  is_Some (msg_artifact
             (ToolMessage (json_dumps data_table) "call_1" (Some "search_products") None))
  <-> "search_products" = "task_tool".
Proof.
  apply (artifact_only_for_delegation (module_globals sample_host)
           (mkcall "search_products" ∅ "call_1") initial_world initial_world).
  reflexivity.
Defined.

Lemma for_each_app_raises {A B} (f : A -> M B) before x after w ys w1 e w2 :
  for_each f before w = (inr ys, w1) ->
  f x w1 = (inl e, w2) ->
  for_each f (before ++ x :: after) w = (inl e, w2).
Proof.
  revert w ys. induction before as [| b before IH]; intros w ys; simpl.
  - intros [= <- <-] Hx. now rewrite (bind_inl _ _ _ _ _ Hx).
  - unfold bind at 1. destruct (f b w) as [[e1 | y] w0] eqn:Hb; [discriminate |].
    unfold bind at 1.
    destruct (for_each f before w0) as [[e2 | ys'] w3] eqn:Hrest; [discriminate |].
    intros [= <- <-] Hx. unfold bind at 1. rewrite Hb.
    now rewrite (bind_inl _ _ _ _ _ (IH _ _ Hrest Hx)).
Qed.

(** X7: when a delegation raises (the model call of its sub-computation
    failed), the tools node raises the same exception: the messages already
    produced for the calls before it are not returned, and the calls after
    it are not run. *)
Theorem failing_delegation_aborts (g : Globals) (pre : list BaseMessage) (c : string)
    (before after : list ToolCall) (tc : ToolCall) (w w1 w2 : World)
    (ms : list BaseMessage) (e : exn) :
  for_each (dispatch g) before w = (inr ms, w1) ->
  dispatch g tc w1 = (inl e, w2) ->
  tool_executor_node g {| messages := pre ++ [AIMessage c (before ++ tc :: after)] |} w
  = (inl e, w2).
Proof.
  intros Hbefore Htc. rewrite tool_executor_node_last.
  eapply for_each_app_raises; eassumption.
Qed.

Lemma failing_delegation_aborts_witness :
  tool_executor_node (module_globals offline_host)
    {| messages := [] ++
         [AIMessage ""
            ([mkcall "display_graph" {["plot_type" := ArgStr "pie"]} "c1"]
             ++ mkcall "task_tool" {["task_description" := ArgStr "do it"]} "c2"
             :: [mkcall "get_weather" {["location" := ArgStr "Oslo"]} "c3"])] |}
    initial_world
  = (inl (Exn "APIConnectionError" "Connection error."),
     after_model_call
       (with_log initial_world
          (delegation_input (mkcall "task_tool" {["task_description" := ArgStr "do it"]} "c2")))).
Proof.
  eapply (failing_delegation_aborts (module_globals offline_host) [] ""
            [mkcall "display_graph" {["plot_type" := ArgStr "pie"]} "c1"]
            [mkcall "get_weather" {["location" := ArgStr "Oslo"]} "c3"]
            (mkcall "task_tool" {["task_description" := ArgStr "do it"]} "c2")
            initial_world initial_world).
  - reflexivity.
  - reflexivity.
Defined.

(** ** The sub-computation *)

Lemma subagent_graph_mock h s w :
  env_truthy h "OPENAI_API_KEY" = false ->
  subagent_graph h s w =
  match getenv h "OPENAI_API_KEY" with
  | None => (inl (Exn "OpenAIError" (openai_error h)), with_log w s)
  | Some _ =>
      (inr {| sub_messages :=
                sub_messages s
                ++ [AIMessage ("Mock subagent result for task: "
                               +:+ arg_str (sub_task s)) []];
              sub_task := sub_task s;
              sub_result := "Mock subagent result for task: "
                            +:+ arg_str (sub_task s) |},
       with_log w s)
  end.
Proof.
  intros Hkey. rewrite subagent_graph_run.
  unfold subagent_node. unfold bind at 1. rewrite ChatOpenAI_run.
  destruct (getenv h "OPENAI_API_KEY"); [| reflexivity].
  rewrite Hkey. reflexivity.
Qed.

Lemma subagent_graph_model h s w :
  env_truthy h "OPENAI_API_KEY" = true ->
  subagent_graph h s w =
  match llm_ainvoke h (llm_calls w)
          [SystemMessage ("You are a helpful subagent. Execute this task: "
                          +:+ arg_str (sub_task s));
           HumanMessage ("Please complete the following task: "
                         +:+ arg_str (sub_task s))] with
  | inr reply =>
      (inr {| sub_messages := sub_messages s ++ [AIMessage (msg_content reply) []];
              sub_task := sub_task s;
              sub_result := msg_content reply |},
       after_model_call (with_log w s))
  | inl e => (inl e, after_model_call (with_log w s))
  end.
Proof.
  intros Hkey. rewrite subagent_graph_run.
  unfold subagent_node. unfold bind at 1. rewrite ChatOpenAI_run.
  destruct (env_truthy_set _ _ Hkey) as [v ->].
  rewrite Hkey.
  unfold bind, chat_ainvoke, ret. simpl.
  destruct (llm_ainvoke h (llm_calls w) _); reflexivity.
Qed.



(** The same start on a host where the variable is not set. *)
Example subagent_without_key :
  subagent_graph sample_host
    {| sub_messages := []; sub_task := ArgStr "count"; sub_result := "" |} initial_world =
  (inl (Exn "OpenAIError" sample_openai_error),
   with_log initial_world
     {| sub_messages := []; sub_task := ArgStr "count"; sub_result := "" |}).
Proof. reflexivity. Qed.

(** X10: with an API key the sub-computation calls the model exactly once,
    with a system and a user message that both quote the task and with none
    of the messages of its state; the reply's content becomes the result
    and the content of the appended message, and a fault of the model is
    the fault of the sub-computation. *)
Theorem subagent_model_run (h : Host) (s : SubagentState) (w : World) :
  env_truthy h "OPENAI_API_KEY" = true ->
  let prompt :=
    [SystemMessage ("You are a helpful subagent. Execute this task: "
                    +:+ arg_str (sub_task s));
     HumanMessage ("Please complete the following task: " +:+ arg_str (sub_task s))] in
  subagent_graph h s w =
  match llm_ainvoke h (llm_calls w) prompt with
  | inr reply =>
      (inr {| sub_messages := sub_messages s ++ [AIMessage (msg_content reply) []];
              sub_task := sub_task s;
              sub_result := msg_content reply |},
       after_model_call (with_log w s))
  | inl e => (inl e, after_model_call (with_log w s))
  end.
Proof.
  intros Hkey prompt. now apply subagent_graph_model.
Qed.

Lemma subagent_model_run_witness :
  subagent_graph keyed_host
    {| sub_messages := []; sub_task := ArgStr "count"; sub_result := "" |} initial_world =
  (inr {| sub_messages := [AIMessage "Done." []]; sub_task := ArgStr "count";
          sub_result := "Done." |},
   after_model_call
     (with_log initial_world
        {| sub_messages := []; sub_task := ArgStr "count"; sub_result := "" |})).
Proof.
  exact (subagent_model_run keyed_host
           {| sub_messages := []; sub_task := ArgStr "count"; sub_result := "" |}
           initial_world eq_refl).
Defined.

(** ** What the tools node does to the world *)

Lemma dispatch_effects h tc w m w' :
  dispatch (module_globals h) tc w = (inr m, w') ->
  rng_pos w' = (if is_valid_weather_call tc then 4 else 0) + rng_pos w
  /\ subgraph_runs w'
     = subgraph_runs w
       ++ (if is_task_call tc then [state_obj (delegation_input tc)] else [])
  /\ llm_calls w'
     = (if is_task_call tc && env_truthy h "OPENAI_API_KEY" then 1 else 0)
       + llm_calls w.
Proof.
  unfold dispatch, is_valid_weather_call, is_task_call, is_weather_call.
  destruct (String.eqb_spec (tc_name tc) "task_tool") as [E | E].
  { rewrite E. simpl.
    change (subagent_graph h _) with (subagent_graph h (delegation_input tc)).
    unfold bind at 1.
    destruct (env_truthy h "OPENAI_API_KEY") eqn:Hkey.
    - rewrite (subagent_graph_model h _ w Hkey).
      destruct (llm_ainvoke h (llm_calls w) _); intros [= <- <-]; simpl; auto.
    - rewrite (subagent_graph_mock h _ w Hkey).
      destruct (getenv h "OPENAI_API_KEY"); [| discriminate].
      intros [= <- <-]. simpl. auto. }
  simpl andb. cbv iota.
  destruct (String.eqb (tc_name tc) "get_weather").
  { unfold try_except, bind at 1. simpl. rewrite get_weather_tool_run.
    destruct (default (ArgStr "unknown") (tc_args tc !! "location")) as [l | l];
      destruct (default (ArgStr "celsius") (tc_args tc !! "unit")) as [u | u];
      try (intros [= <- <-]; simpl; rewrite app_nil_r; now auto).
    rewrite get_weather_run.
    destruct (str_index0 _); intros [= <- <-]; simpl; rewrite app_nil_r; auto. }
  destruct (String.eqb (tc_name tc) "search_products").
  { unfold try_except, bind at 1. simpl.
    destruct (default (ArgStr "") (tc_args tc !! "query"));
      intros [= <- <-]; rewrite app_nil_r; auto. }
  destruct (String.eqb (tc_name tc) "display_graph").
  { unfold try_except, bind at 1. simpl.
    destruct (default (ArgStr "bar") (tc_args tc !! "plot_type")) as [p | p];
      [| intros [= <- <-]; rewrite app_nil_r; now auto].
    simpl.
    destruct (display_graph_pure p w w) as [_ Hw].
    destruct (display_graph p w) as [[e | s] w0] eqn:Hd; simpl in Hw; subst w0;
      intros [= <- <-]; rewrite app_nil_r; auto. }
  intros [= <- <-]. rewrite app_nil_r. auto.
Qed.

Lemma for_each_effects h tcs : forall w ms w',
  for_each (dispatch (module_globals h)) tcs w = (inr ms, w') ->
  rng_pos w' = 4 * length (List.filter is_valid_weather_call tcs) + rng_pos w
  /\ subgraph_runs w'
     = subgraph_runs w
       ++ List.map (fun tc => state_obj (delegation_input tc))
                   (List.filter is_task_call tcs)
  /\ llm_calls w'
     = (if env_truthy h "OPENAI_API_KEY"
        then length (List.filter is_task_call tcs) else 0)
       + llm_calls w.
Proof.
  induction tcs as [| tc tcs IH]; intros w ms w'; simpl.
  - intros [= <- <-]. rewrite app_nil_r. now destruct (env_truthy h _).
  - unfold bind at 1.
    destruct (dispatch (module_globals h) tc w) as [[e | m] w1] eqn:Hd; [discriminate |].
    unfold bind at 1.
    destruct (for_each (dispatch (module_globals h)) tcs w1) as [[e | ms'] w2] eqn:Hrest;
      [discriminate |].
    intros [= <- <-].
    destruct (dispatch_effects _ _ _ _ _ Hd) as (Hr & Hl & Hc).
    destruct (IH _ _ _ Hrest) as (Hr' & Hl' & Hc').
    rewrite Hr', Hl', Hc', Hr, Hl, Hc.
    destruct (is_valid_weather_call tc), (is_task_call tc),
      (env_truthy h "OPENAI_API_KEY"); simpl;
      rewrite <- ?app_assoc, ?app_nil_r; repeat split; simpl; try reflexivity; lia.
Qed.

(** X6: when the tools node returns, it has made four draws for each
    [get_weather] call whose location and unit, where given, are strings,
    and none else (a call that fails the validation of its input does not
    reach the function); it has started one sub-computation for each
    [task_tool] call, in the order of the calls and each from the state
    built from the call's task description; and it has called the model
    once for each [task_tool] call if there is an API key and not at all
    otherwise. *)
Theorem tools_node_effects (h : Host) (pre : list BaseMessage) (c : string)
    (tcs : list ToolCall) (w w' : World) (ms : list BaseMessage) :
  tool_executor_node (module_globals h) {| messages := pre ++ [AIMessage c tcs] |} w
  = (inr ms, w') ->
  rng_pos w' = 4 * length (List.filter is_valid_weather_call tcs) + rng_pos w
  /\ subgraph_runs w'
     = subgraph_runs w
       ++ List.map (fun tc => state_obj (delegation_input tc))
                   (List.filter is_task_call tcs)
  /\ llm_calls w'
     = (if env_truthy h "OPENAI_API_KEY"
        then length (List.filter is_task_call tcs) else 0)
       + llm_calls w.
Proof.
  rewrite tool_executor_node_last. apply for_each_effects.
Qed.

Lemma tools_node_effects_witness :
  let tcs := [mkcall "get_weather" {["location" := ArgStr "Oslo"]} "c1";
              mkcall "task_tool" {["task_description" := ArgStr "first"]} "c2";
              mkcall "get_weather" {["location" := ArgOther "None"]} "c3";
              mkcall "get_weather" {["location" := ArgStr "Rome"]} "c4";
              mkcall "task_tool" {["task_description" := ArgStr "second"]} "c5"] in
  let w' := snd (tool_executor_node (module_globals keyed_host)
                   {| messages := [] ++ [AIMessage "" tcs] |} initial_world) in
  rng_pos w' = 4 * 2 + 0
  /\ subgraph_runs w'
     = [] ++ List.map (fun tc => state_obj (delegation_input tc))
                      (List.filter is_task_call tcs)
  /\ llm_calls w' = 2 + 0.
Proof.
  intros tcs w'.
  refine (tools_node_effects keyed_host [] "" tcs initial_world w'
            (match fst (tool_executor_node (module_globals keyed_host)
                          {| messages := [] ++ [AIMessage "" tcs] |} initial_world)
             with inr ms => ms | inl _ => [] end) _).
  vm_compute. reflexivity.
Defined.

(** ** The agent node *)



Lemma agent_node_model h st w :
  env_truthy h "OPENAI_API_KEY" = true ->
  agent_node h st w =
  (match llm_ainvoke h (llm_calls w) (messages_with_system (messages st)) with
   | inr reply => inr [reply]
   | inl e => inl e
   end, after_model_call w).
Proof.
  intros Hkey. unfold agent_node. unfold bind at 1. rewrite ChatOpenAI_run.
  destruct (env_truthy_set _ _ Hkey) as [v ->]. rewrite Hkey.
  unfold bind, chat_ainvoke, ret, messages_with_system.
  destruct (llm_ainvoke h (llm_calls w) _); reflexivity.
Qed.

Lemma filter_no_system msgs :
  existsb is_system_message msgs = false -> List.filter is_system_message msgs = [].
Proof.
  induction msgs as [| m msgs IH]; simpl; [reflexivity |].
  destruct (is_system_message m); simpl; [discriminate | exact IH].
Qed.

Lemma filter_some_system msgs :
  existsb is_system_message msgs = true -> List.filter is_system_message msgs <> [].
Proof.
  induction msgs as [| m msgs IH]; simpl; [discriminate |].
  destruct (is_system_message m); simpl; [discriminate | exact IH].
Qed.

(** X11: with an API key the agent node calls the model exactly once and
    returns the reply alone, so the system instruction is never written to
    the state; the list sent to the model always holds a system message:
    the instruction is put in front when the state has no system message
    and is not added when it has one, and the messages of the state follow
    unchanged and in order; a fault of the model is the fault of the node. *)
Theorem agent_prompt (h : Host) (st : GraphState) (w : World) :
  env_truthy h "OPENAI_API_KEY" = true ->
  let prompt := messages_with_system (messages st) in
  agent_node h st w =
  (match llm_ainvoke h (llm_calls w) prompt with
   | inr reply => inr [reply]
   | inl e => inl e
   end, after_model_call w)
  /\ existsb is_system_message prompt = true
  /\ List.filter (fun m => negb (is_system_message m)) prompt
     = List.filter (fun m => negb (is_system_message m)) (messages st)
  /\ (List.filter is_system_message (messages st) = [] ->
      prompt = system_message :: messages st)
  /\ (List.filter is_system_message (messages st) <> [] -> prompt = messages st).
Proof.
  intros Hkey prompt. split; [now apply agent_node_model |].
  unfold prompt, messages_with_system.
  destruct (existsb is_system_message (messages st)) eqn:E; simpl.
  - repeat split; try assumption.
    intros H. now apply filter_some_system in E.
  - repeat split.
    intros H. now elim H; apply filter_no_system.
Qed.

Lemma agent_prompt_witness :
  agent_node keyed_host {| messages := [HumanMessage "Hi"] |} initial_world
  = (inr [AIMessage "Done." []], after_model_call initial_world).
Proof.
  refine (proj1 (agent_prompt keyed_host {| messages := [HumanMessage "Hi"] |}
                   initial_world _)).
  reflexivity.
Defined.

(** ** Runs of the main graph *)

Lemma run_from_agent h limit st w :
  run_from (S limit) (create_graph h) merge_messages "agent" st w =
  match agent_node h st w with
  | (inr u, w1) =>
      let st' := merge_messages st u in
      if String.eqb (should_call_tools st') "tools"
      then run_from limit (create_graph h) merge_messages "tools" st' w1
      else (inr st', w1)
  | (inl e, w1) => (inl e, w1)
  end.
Proof.
  simpl. unfold bind at 1.
  destruct (agent_node h st w) as [[e | u] w1]; [reflexivity |].
  rewrite successor_agent.
  destruct (String.eqb (should_call_tools (merge_messages st u)) "tools");
    [reflexivity |].
  destruct limit; reflexivity.
Qed.

Lemma run_from_tools h limit st w :
  run_from (S limit) (create_graph h) merge_messages "tools" st w =
  match tool_executor_node (module_globals h) st w with
  | (inr u, w1) =>
      run_from limit (create_graph h) merge_messages "agent" (merge_messages st u) w1
  | (inl e, w1) => (inl e, w1)
  end.
Proof.
  simpl. unfold bind at 1.
  destruct (tool_executor_node (module_globals h) st w) as [[e | u] w1]; reflexivity.
Qed.

Lemma run_from_zero h node st w :
  node = "agent" \/ node = "tools" ->
  run_from 0 (create_graph h) merge_messages node st w = (inl recursion_error, w).
Proof. intros [-> | ->]; reflexivity. Qed.




Lemma run_graph_unfold h input w :
  run_graph h input w
  = run_from (Pos.to_nat (recursion_limit h)) (create_graph h) merge_messages
      "agent" input w.
Proof. reflexivity. Qed.



(** The same run when the variable is not set. *)
Example run_without_key :
  run_graph sample_host {| messages := [HumanMessage "Hi"] |} initial_world
  = (inl (Exn "OpenAIError" sample_openai_error), initial_world).
Proof. reflexivity. Qed.

Lemma run_from_returns h limit : forall node st w final w',
  node = "agent" \/ node = "tools" ->
  run_from limit (create_graph h) merge_messages node st w = (inr final, w') ->
  (exists added, messages final = messages st ++ added)
  /\ ~ carries_tool_call final.
Proof.
  induction limit as [| limit IH]; intros node st w final w' Hnode.
  - rewrite run_from_zero by assumption. discriminate.
  - destruct Hnode as [-> | ->].
    + rewrite run_from_agent.
      destruct (agent_node h st w) as [[e | u] w1]; [discriminate |]. cbv zeta.
      destruct (String.eqb_spec (should_call_tools (merge_messages st u)) "tools")
        as [E | E].
      * intros Hrun. destruct (IH _ _ _ _ _ (or_intror eq_refl) Hrun) as [[added Ha] Hc].
        split; [| assumption]. exists (u ++ added). rewrite Ha. simpl.
        now rewrite app_assoc.
      * intros [= <- <-]. split; [now exists u |].
        intros Hc. now apply should_call_tools_tools in Hc.
    + rewrite run_from_tools.
      destruct (tool_executor_node (module_globals h) st w) as [[e | u] w1];
        [discriminate |].
      intros Hrun. destruct (IH _ _ _ _ _ (or_introl eq_refl) Hrun) as [[added Ha] Hc].
      split; [| assumption]. exists (u ++ added). rewrite Ha. simpl.
      now rewrite app_assoc.
Qed.

(** X13: when a run of the main graph returns, the messages it was given
    are still there, first and unchanged, followed by what the run added,
    and the latest message carries no tool call. *)
Theorem graph_run_returns (h : Host) (input final : GraphState) (w w' : World) :
  run_graph h input w = (inr final, w') ->
  (exists added, messages final = messages input ++ added)
  /\ ~ carries_tool_call final.
Proof.
  rewrite run_graph_unfold. apply run_from_returns. now left.
Qed.

(** X14: with an API key, when the first reply of the model carries no
    tool call the run ends after that one call, and its final messages are
    the input followed by the reply. *)
Theorem graph_single_turn (h : Host) (input : GraphState) (w : World)
    (reply : BaseMessage) :
  env_truthy h "OPENAI_API_KEY" = true ->
  llm_ainvoke h (llm_calls w) (messages_with_system (messages input)) = inr reply ->
  msg_tool_calls reply = [] ->
  run_graph h input w
  = (inr {| messages := messages input ++ [reply] |}, after_model_call w).
Proof.
  intros Hkey Hreply Hnone. rewrite run_graph_unfold.
  destruct (recursion_limit_pos h) as [n ->].
  rewrite run_from_agent, (agent_node_model h input w Hkey), Hreply.
  cbv zeta.
  assert (should_call_tools (merge_messages input [reply]) = "end") as ->.
  { unfold should_call_tools. simpl. rewrite last_snoc. now rewrite Hnone. }
  reflexivity.
Qed.

Lemma graph_single_turn_witness :
  run_graph keyed_host {| messages := [HumanMessage "Hi"] |} initial_world
  = (inr {| messages := [HumanMessage "Hi"] ++ [AIMessage "Done." []] |},
     after_model_call initial_world).
Proof.
  exact (graph_single_turn keyed_host {| messages := [HumanMessage "Hi"] |}
           initial_world (AIMessage "Done." []) eq_refl eq_refl eq_refl).
Defined.

Lemma graph_run_returns_witness :
  (exists added, [HumanMessage "Hi"] ++ [AIMessage "Done." []]
                 = [HumanMessage "Hi"] ++ added)
  /\ ~ carries_tool_call {| messages := [HumanMessage "Hi"] ++ [AIMessage "Done." []] |}.
Proof.
  apply (graph_run_returns keyed_host {| messages := [HumanMessage "Hi"] |}
           {| messages := [HumanMessage "Hi"] ++ [AIMessage "Done." []] |}
           initial_world (after_model_call initial_world)).
  reflexivity.
Defined.

(** ** Inbound commands: edge cases *)

Lemma process_commands_app h a b : forall acc,
  process_commands h (a ++ b) acc =
  match process_commands h a acc with
  | inr out => process_commands h b out
  | inl e => inl e
  end.
Proof.
  induction a as [| c a IH]; intros acc; simpl; [reflexivity |].
  destruct (command_messages h c); [reflexivity | apply IH].
Qed.

(** X15: a command whose type is neither [add-message] nor
    [add-tool-result] is skipped without an error: it contributes no
    message, and the commands around it are processed as if it were not
    there. *)
Theorem unknown_command_skipped (h : Host) (c : Command)
    (before after : list Command) (acc : list BaseMessage) :
  command_type c <> "add-message" ->
  command_type c <> "add-tool-result" ->
  command_messages h c = inr []
  /\ process_commands h (before ++ c :: after) acc
     = process_commands h (before ++ after) acc.
Proof.
  intros H1 H2.
  assert (command_messages h c = inr []) as Hc.
  { unfold command_messages.
    destruct (String.eqb_spec (command_type c) "add-message"); [contradiction |].
    destruct (String.eqb_spec (command_type c) "add-tool-result"); [contradiction |].
    reflexivity. }
  split; [exact Hc |].
  rewrite !process_commands_app.
  destruct (process_commands h before acc) as [e | out]; [reflexivity |].
  simpl. rewrite Hc. now rewrite app_nil_r.
Qed.

Lemma unknown_command_skipped_witness :
  process_commands sample_host
    ([AddToolResultCommand "add-tool-result" "call_1" []]
     ++ AddMessageCommand "edit-message" {| um_role := "user"; um_parts := [] |}
     :: [AddToolResultCommand "add-tool-result" "call_2" []]) []
  = process_commands sample_host
      ([AddToolResultCommand "add-tool-result" "call_1" []]
       ++ [AddToolResultCommand "add-tool-result" "call_2" []]) [].
Proof.
  refine (proj2 (unknown_command_skipped sample_host
                   (AddMessageCommand "edit-message" {| um_role := "user"; um_parts := [] |})
                   [AddToolResultCommand "add-tool-result" "call_1" []]
                   [AddToolResultCommand "add-tool-result" "call_2" []] [] _ _));
    discriminate.
Defined.

(** X16: a command whose type names the other class (a tool result typed
    [add-message], a message typed [add-tool-result]) raises
    [AttributeError]; a command that raises, wherever it stands in the
    list, makes the whole preparation fail, so the graph is not started
    and the messages of the commands before it are not used. *)
Theorem mismatched_command_aborts (h : Host) (request : ChatRequest)
    (before after : list Command) (bad : Command) (out : list BaseMessage) (e : exn) :
  commands request = before ++ bad :: after ->
  process_commands h before [] = inr out ->
  command_messages h bad = inl e ->
  run_callback_prepare h request = inl e
  /\ (forall toolCallId result,
        command_messages h (AddToolResultCommand "add-message" toolCallId result)
        = inl (no_attribute "AddToolResultCommand" "message"))
  /\ (forall message,
        command_messages h (AddMessageCommand "add-tool-result" message)
        = inl (no_attribute "AddMessageCommand" "result")).
Proof.
  intros Hcmds Hbefore Hbad. split; [| split; reflexivity].
  unfold run_callback_prepare. rewrite Hcmds, process_commands_app, Hbefore.
  simpl. now rewrite Hbad.
Qed.

Lemma mismatched_command_aborts_witness :
  run_callback_prepare sample_host
    {| commands :=
         [AddMessageCommand "add-message"
            {| um_role := "user";
               um_parts := [{| part_type := "text"; part_text := Some "Hi";
                               part_image := None |}] |}]
         ++ AddToolResultCommand "add-message" "call_1" []
         :: [];
       system := None; tools := None; runConfig := None; state := None |}
  = inl (no_attribute "AddToolResultCommand" "message").
Proof.
  refine (proj1 (mismatched_command_aborts sample_host _
                   [AddMessageCommand "add-message"
                      {| um_role := "user";
                         um_parts := [{| part_type := "text"; part_text := Some "Hi";
                                         part_image := None |}] |}]
                   [] (AddToolResultCommand "add-message" "call_1" [])
                   [HumanMessage "Hi"] _ _ _ _)); reflexivity.
Defined.

Lemma text_parts_nonempty message : Forall (fun t => t <> "") (text_parts message).
Proof.
  unfold text_parts. induction (um_parts message) as [| part parts IH];
    simpl; [constructor |].
  destruct (String.eqb (part_type part) "text"); [| exact IH].
  destruct (part_text part) as [[| c s] |]; simpl; try exact IH.
  constructor; [discriminate | exact IH].
Qed.

Lemma str_join_nonempty sep t ts : t <> "" -> str_join sep (t :: ts) <> "".
Proof.
  intros Ht. unfold str_join. simpl.
  destruct ts; [assumption |].
  destruct t as [| c t]; [now elim Ht |]. discriminate.
Qed.

(** X17: one command contributes at most one message, and only of two
    kinds: a user message, whose content is never empty (text parts that
    are missing, empty or not of type [text] are left out before joining),
    or a tool message without name and artifact. *)
Theorem command_messages_shape (h : Host) (c : Command) (ms : list BaseMessage) :
  command_messages h c = inr ms ->
  length ms <= 1 /\ Forall input_message_ok ms.
Proof.
  unfold command_messages.
  destruct (String.eqb (command_type c) "add-message").
  { destruct c as [t message | t i r]; [| discriminate].
    pose proof (text_parts_nonempty message) as Hne.
    destruct (text_parts message) as [| p ps]; intros [= <-]; simpl.
    - split; [lia | constructor].
    - split; [lia |]. constructor; [| constructor].
      simpl. apply str_join_nonempty. now inversion Hne. }
  destruct (String.eqb (command_type c) "add-tool-result").
  { destruct c as [t message | t i r]; [discriminate |].
    intros [= <-]. simpl. split; [lia |]. repeat constructor. }
  intros [= <-]. simpl. split; [lia | constructor].
Qed.

Lemma command_messages_shape_witness :
  length [HumanMessage "Hello, world"] <= 1
  /\ Forall input_message_ok [HumanMessage "Hello, world"].
Proof.
  apply (command_messages_shape sample_host
           (AddMessageCommand "add-message"
              {| um_role := "user";
                 um_parts := [{| part_type := "text"; part_text := Some "Hello,";
                                 part_image := None |};
                              {| part_type := "text"; part_text := Some "";
                                 part_image := None |};
                              {| part_type := "image"; part_text := Some "caption";
                                 part_image := Some "cat.png" |};
                              {| part_type := "text"; part_text := Some "world";
                                 part_image := None |}] |})).
  reflexivity.
Defined.

(** ** Preparing the run state: edge cases *)

Lemma init_controller_state_other (s : option (gmap string json)) (k : string) :
  k <> "messages" ->
  init_controller_state s !! k = s ≫= (fun d => d !! k).
Proof.
  intros Hk. unfold init_controller_state.
  destruct s as [d |]; simpl.
  - destruct (d !! "messages"); [reflexivity |]. now apply lookup_insert_ne.
  - rewrite lookup_empty. rewrite lookup_insert_ne by congruence. apply lookup_empty.
Qed.

Lemma append_input_messages_other h msgs : forall st st' k,
  append_input_messages h st msgs = inr st' ->
  k <> "messages" -> st' !! k = st !! k.
Proof.
  induction msgs as [| m msgs IH]; intros st st' k; simpl.
  - now intros [= <-].
  - unfold append_state_message.
    destruct (st !! "messages") as [[| | | | l |] |]; try discriminate.
    intros Hrest Hk. rewrite (IH _ _ _ Hrest Hk). now apply lookup_insert_ne.
Qed.

(** X18: preparing the run never touches a key of the inbound state other
    than [messages]: when the graph is started every other key holds what
    the client sent, and keys the client did not send are absent. *)
Theorem prepare_keeps_other_keys (h : Host) (request : ChatRequest)
    (st : gmap string json) (input : GraphState) (k : string) :
  run_callback_prepare h request = inr (st, input) ->
  k <> "messages" ->
  st !! k = state request ≫= (fun d => d !! k).
Proof.
  intros Hrun Hk. apply run_callback_prepare_input in Hrun as [_ Happ].
  rewrite (append_input_messages_other _ _ _ _ _ Happ Hk).
  now apply init_controller_state_other.
Qed.

Lemma prepare_keeps_other_keys_witness :
  ({["thread" := JStr "t-1"; "messages" := JList [JStr "old"; JDict [("content", JStr "Hi")]]]}
   : gmap string json) !! "thread"
  = Some ({["thread" := JStr "t-1"; "messages" := JList [JStr "old"]]} : gmap string json)
    ≫= (fun d => d !! "thread").
Proof.
  refine (prepare_keeps_other_keys sample_host
            {| commands :=
                 [AddMessageCommand "add-message"
                    {| um_role := "user";
                       um_parts := [{| part_type := "text"; part_text := Some "Hi";
                                       part_image := None |}] |}];
               system := None; tools := None; runConfig := None;
               state := Some {["thread" := JStr "t-1"; "messages" := JList [JStr "old"]]} |}
            _ {| messages := [HumanMessage "Hi"] |} "thread" _ _).
  - vm_compute. reflexivity.
  - discriminate.
Defined.

Lemma append_input_messages_non_list h (st : gmap string json) v m ms :
  st !! "messages" = Some v ->
  (forall l, v <> JList l) ->
  exists e, append_input_messages h st (m :: ms) = inl e
            /\ exn_class e = "AttributeError".
Proof.
  intros Hv Hnl. simpl. unfold append_state_message. rewrite Hv.
  destruct v; try (eexists; split; reflexivity).
  now elim (Hnl items).
Qed.

(** X19: when the inbound state has a [messages] entry that is not a list
    and the commands contribute at least one message, the preparation
    raises [AttributeError] (the entry has no [append]) and the graph is
    not started. *)
Theorem prepare_rejects_non_list (h : Host) (request : ChatRequest)
    (d : gmap string json) (v : json) (m : BaseMessage) (ms : list BaseMessage) :
  state request = Some d ->
  d !! "messages" = Some v ->
  (forall l, v <> JList l) ->
  process_commands h (commands request) [] = inr (m :: ms) ->
  exists e, run_callback_prepare h request = inl e
            /\ exn_class e = "AttributeError".
Proof.
  intros Hst Hv Hnl Hcmds. unfold run_callback_prepare. rewrite Hcmds, Hst.
  unfold init_controller_state. rewrite Hv.
  destruct (append_input_messages_non_list h d v m ms Hv Hnl) as (e & -> & He).
  eauto.
Qed.

Lemma prepare_rejects_non_list_witness :
  exists e,
    run_callback_prepare sample_host
      {| commands := [AddToolResultCommand "add-tool-result" "call_1" []];
         system := None; tools := None; runConfig := None;
         state := Some {["messages" := JStr "none yet"]} |}
    = inl e
    /\ exn_class e = "AttributeError".
Proof.
  refine (prepare_rejects_non_list sample_host _ {["messages" := JStr "none yet"]}
            (JStr "none yet") (ToolMessage "{}" "call_1" None None) [] _ _ _ _).
  - reflexivity.
  - reflexivity.
  - discriminate.
  - reflexivity.
Defined.

Lemma process_commands_silent h cmds : forall acc,
  Forall (fun c => command_messages h c = inr []) cmds ->
  process_commands h cmds acc = inr acc.
Proof.
  induction cmds as [| c cmds IH]; intros acc Hall; [reflexivity |].
  inversion Hall as [| ? ? Hc Hrest]; subst. simpl. rewrite Hc, app_nil_r.
  now apply IH.
Qed.

(** X20: when no command contributes a message (no command at all,
    commands of other types, messages without text) the preparation cannot
    fail: the run state is the seeded state as it is, even with a
    [messages] entry that is not a list, and the graph is started on an
    empty message list. *)
Theorem prepare_without_input (h : Host) (request : ChatRequest) :
  Forall (fun c => command_messages h c = inr []) (commands request) ->
  run_callback_prepare h request
  = inr (init_controller_state (state request), {| messages := [] |}).
Proof.
  intros Hall. unfold run_callback_prepare.
  now rewrite (process_commands_silent h _ [] Hall).
Qed.

Lemma prepare_without_input_witness :
  run_callback_prepare sample_host
    {| commands := [AddMessageCommand "add-message"
                      {| um_role := "user";
                         um_parts := [{| part_type := "image"; part_text := None;
                                         part_image := Some "cat.png" |}] |}];
       system := None; tools := None; runConfig := None;
       state := Some {["messages" := JStr "none yet"]} |}
  = inr (init_controller_state (Some {["messages" := JStr "none yet"]}),
         {| messages := [] |}).
Proof.
  apply (prepare_without_input sample_host
           {| commands := [AddMessageCommand "add-message"
                             {| um_role := "user";
                                um_parts := [{| part_type := "image"; part_text := None;
                                                part_image := Some "cat.png" |}] |}];
              system := None; tools := None; runConfig := None;
              state := Some {["messages" := JStr "none yet"]} |}).
  repeat constructor.
Defined.

(** ** Missing arguments *)

(** X21: a tool call that omits an argument is answered exactly as the call
    that passes the default for it: an empty task description, the location
    [unknown], the unit [celsius], an empty query, the plot type [bar]. *)
Theorem missing_argument_default (g : Globals) (tc : ToolCall) (key value : string)
    (w : World) :
  In (key, value) argument_defaults ->
  tc_args tc !! key = None ->
  dispatch g (set_arg key value tc) w = dispatch g tc w.
Proof.
  intros Hin Hnone. unfold dispatch, set_arg. cbn [tc_name tc_args tc_id].
  simpl in Hin.
  destruct Hin as [[= <- <-] | [[= <- <-] | [[= <- <-] | [[= <- <-] | [[= <- <-] | []]]]]];
    rewrite ?lookup_insert_eq, ?Hnone;
    rewrite ?lookup_insert_ne by discriminate;
    reflexivity.
Qed.

Lemma missing_argument_default_witness :
  dispatch (module_globals sample_host)
    (set_arg "plot_type" "bar" (mkcall "display_graph" ∅ "call_1")) initial_world
  = dispatch (module_globals sample_host) (mkcall "display_graph" ∅ "call_1") initial_world.
Proof.
  apply (missing_argument_default (module_globals sample_host)
           (mkcall "display_graph" ∅ "call_1") "plot_type" "bar" initial_world).
  - simpl. tauto.
  - reflexivity.
Defined.

(** ** A run with one round of tools *)

(** X22: with an API key, when the first reply of the model carries tool
    calls that the tools node answers and the second reply carries none,
    the run ends after the second reply: its final messages are the input,
    the first reply, one tool message per call and the second reply, in
    this order, and the model was called twice by the agent. The run takes
    three steps, which the step limit has to allow. *)
Theorem graph_two_turns (h : Host) (input : GraphState) (w w1 : World)
    (first second : BaseMessage) (tc : ToolCall) (tcs : list ToolCall)
    (answers : list BaseMessage) :
  env_truthy h "OPENAI_API_KEY" = true ->
  (3 <= recursion_limit h)%positive ->
  llm_ainvoke h (llm_calls w) (messages_with_system (messages input)) = inr first ->
  msg_tool_calls first = tc :: tcs ->
  for_each (dispatch (module_globals h)) (tc :: tcs) (after_model_call w)
  = (inr answers, w1) ->
  llm_ainvoke h (llm_calls w1)
    (messages_with_system ((messages input ++ [first]) ++ answers)) = inr second ->
  msg_tool_calls second = [] ->
  run_graph h input w
  = (inr {| messages := ((messages input ++ [first]) ++ answers) ++ [second] |},
     after_model_call w1)
  /\ Forall2 answers_call (tc :: tcs) answers.
Proof.
  intros Hkey Hlimit Hfirst Hcalls Htools Hsecond Hnone. split.
  - rewrite run_graph_unfold.
    assert (exists n, Pos.to_nat (recursion_limit h) = S (S (S n))) as [n ->].
    { exists (Pos.to_nat (recursion_limit h) - 3). lia. }
    rewrite run_from_agent, (agent_node_model h input w Hkey), Hfirst. cbv zeta.
    assert (should_call_tools (merge_messages input [first]) = "tools") as ->.
    { unfold should_call_tools. simpl. rewrite last_snoc. now rewrite Hcalls. }
    simpl String.eqb. cbv iota.
    rewrite run_from_tools.
    assert (tool_executor_node (module_globals h) (merge_messages input [first])
              (after_model_call w) = (inr answers, w1)) as ->.
    { unfold tool_executor_node, merge_messages. cbn [messages].
      rewrite last_snoc, Hcalls. exact Htools. }
    rewrite run_from_agent, (agent_node_model h _ w1 Hkey).
    change (messages (merge_messages (merge_messages input [first]) answers))
      with ((messages input ++ [first]) ++ answers).
    rewrite Hsecond. cbv zeta.
    assert (should_call_tools
              (merge_messages (merge_messages (merge_messages input [first]) answers)
                 [second]) = "end") as ->.
    { unfold should_call_tools. simpl. rewrite last_snoc. now rewrite Hnone. }
    reflexivity.
  - eapply for_each_dispatch_shape. exact Htools.
Qed.

(** The weather scenario: one question, one lookup, one answer. *)
Lemma graph_two_turns_witness :
  exists content,
    run_graph scripted_host {| messages := [HumanMessage "What's the weather in Tokyo?"] |}
      initial_world
    = (inr {| messages :=
                (([HumanMessage "What's the weather in Tokyo?"]
                  ++ [AIMessage "" [mkcall "get_weather" {["location" := ArgStr "Tokyo"]} "call_1"]])
                 ++ [ToolMessage content "call_1" (Some "get_weather") None])
                ++ [AIMessage "It is sunny in Tokyo." []] |},
       after_model_call (after_draws 4 (after_model_call initial_world)))
    /\ json_field "location" content = Some (JStr "Tokyo").
Proof.
  eexists. split.
  - refine (proj1 (graph_two_turns scripted_host
                     {| messages := [HumanMessage "What's the weather in Tokyo?"] |}
                     initial_world (after_draws 4 (after_model_call initial_world))
                     (AIMessage "" [mkcall "get_weather" {["location" := ArgStr "Tokyo"]} "call_1"])
                     (AIMessage "It is sunny in Tokyo." [])
                     (mkcall "get_weather" {["location" := ArgStr "Tokyo"]} "call_1") []
                     [ToolMessage _ "call_1" (Some "get_weather") None]
                     _ _ _ _ _ _ _)); first [reflexivity | discriminate].
  - vm_compute. reflexivity.
Defined.
